(** * Referral router: the generate / validate / repair workflow

    A shallow embedding of [agent_app/tools.py], [agent_app/graph.py] and
    [agent_app/main.py].

    - Decoded JSON (Python dicts, lists, strings, ints, booleans, None) is the
      inductive type [json]; a dict is an association list in insertion order.
    - A Python function that can raise and that talks to the outside world is
      a computation in the monad [M]: it reads and updates a [World] (the
      audit table, the HTTP requests sent so far, the store of dict objects
      that are updated in place) and returns [Ok v] or [Raise msg], where
      [msg] is what [str(e)] gives in an [except Exception as e] handler.
    - What the outside world answers (HTTP servers, the completion service,
      [json.loads], the [fhirclient] model classes, SQLite) is an [Env], a
      record of oracles indexed by the number of interactions so far. *)

From Stdlib Require Import Ascii String ZArith Lia Bool.
From stdpp Require Import base list strings pretty.

Local Open Scope string_scope.
Local Open Scope list_scope.
Local Open Scope Z_scope.

(** ** JSON values and the Python operations the code applies to them *)

#[local] Set Warnings "-register-all".

Inductive json : Type :=
| JNull
| JBool (b : bool)
| JNum (z : Z)
| JStr (s : string)
| JList (l : list json)
| JObj (d : list (string * json)).

Abbreviation dict := (list (string * json)).

(** Result of a Python expression: a value, or a raised exception carried as
    the text [str(e)]. *)
Inductive exn (A : Type) : Type :=
| Ok (a : A)
| Raise (msg : string).

Arguments Ok {A} a.
Arguments Raise {A} msg.

Definition exn_bind {A B} (x : exn A) (f : A -> exn B) : exn B :=
  match x with
  | Ok a => f a
  | Raise msg => Raise msg
  end.

(** [bool(x)] *)
Definition truthy (j : json) : bool :=
  match j with
  | JNull => false
  | JBool b => b
  | JNum z => negb (z =? 0)
  | JStr s => negb (String.eqb s EmptyString)
  | JList l => match l with [] => false | _ => true end
  | JObj d => match d with [] => false | _ => true end
  end.

(** [d.get(k)] on a dict: the first binding of [k]. *)
Fixpoint dict_get (d : dict) (k : string) : option json :=
  match d with
  | [] => None
  | (k', v) :: d' => if String.eqb k' k then Some v else dict_get d' k
  end.

(** [d[k] = v]: overwrite in place when the key is present, append otherwise. *)
Fixpoint dict_set (d : dict) (k : string) (v : json) : dict :=
  match d with
  | [] => [(k, v)]
  | (k', v') :: d' =>
      if String.eqb k' k then (k', v) :: d' else (k', v') :: dict_set d' k v
  end.

Definition dict_get_default (d : dict) (k : string) (default : json) : json :=
  match dict_get d k with
  | Some v => v
  | None => default
  end.

(** [x.get(k, default)]: only dicts have [get]. *)
Definition py_get (x : json) (k : string) (default : json) : exn json :=
  match x with
  | JObj d => Ok (dict_get_default d k default)
  | _ => Raise "object has no attribute 'get'"
  end.

(** [x[k]] with a string key. *)
Definition getitem_key (x : json) (k : string) : exn json :=
  match x with
  | JObj d =>
      match dict_get d k with
      | Some v => Ok v
      | None => Raise ("'" +:+ k +:+ "'")
      end
  | JList _ => Raise "list indices must be integers or slices, not str"
  | JStr _ => Raise "string indices must be integers, not 'str'"
  | _ => Raise "object is not subscriptable"
  end.

(** [x[0]] *)
Definition getitem_0 (x : json) : exn json :=
  match x with
  | JList l =>
      match l with
      | v :: _ => Ok v
      | [] => Raise "list index out of range"
      end
  | JStr s =>
      match s with
      | String c _ => Ok (JStr (String c EmptyString))
      | EmptyString => Raise "string index out of range"
      end
  | JObj _ => Raise "0"
  | _ => Raise "object is not subscriptable"
  end.

(** [x[k] = v] *)
Definition setitem_key (x : json) (k : string) (v : json) : exn json :=
  match x with
  | JObj d => Ok (JObj (dict_set d k v))
  | JList _ => Raise "list indices must be integers or slices, not str"
  | _ => Raise "object does not support item assignment"
  end.

(** [len(x)] *)
Definition py_len (x : json) : exn Z :=
  match x with
  | JStr s => Ok (Z.of_nat (String.length s))
  | JList l => Ok (Z.of_nat (length l))
  | JObj d => Ok (Z.of_nat (length d))
  | _ => Raise "object has no len()"
  end.

(** [x == "s"] for a string literal. *)
Definition py_eq_str (x : json) (s : string) : bool :=
  match x with
  | JStr s' => String.eqb s' s
  | _ => false
  end.

Fixpoint chars_of (s : string) : list json :=
  match s with
  | EmptyString => []
  | String c s' => JStr (String c EmptyString) :: chars_of s'
  end.

(** [for v in x]: the items a [for] loop visits. *)
Definition py_iter (x : json) : exn (list json) :=
  match x with
  | JList l => Ok l
  | JStr s => Ok (chars_of s)
  | JObj d => Ok (map (fun kv => JStr (fst kv)) d)
  | _ => Raise "object is not iterable"
  end.

(** ["\n".join(xs)] for a list of items: every item must be a [str]. *)
Fixpoint join_lines (xs : list json) : exn string :=
  match xs with
  | [] => Ok EmptyString
  | JStr s :: rest =>
      match rest with
      | [] => Ok s
      | _ => exn_bind (join_lines rest) (fun r => Ok (s +:+ "
" +:+ r))
      end
  | _ :: _ => Raise "sequence item: expected str instance"
  end.

(** ** The outside world *)

Inductive http_method : Type := GET | POST.

Record request : Type := {
  rq_method : http_method;
  rq_url : string;
  rq_params : dict;
  rq_json : option json
}.

(** An [httpx] response: [status_code], [text], and what [response.json()]
    gives (it raises when the body is not JSON). *)
Record response : Type := {
  status_code : Z;
  text : string;
  body_json : exn json
}.

(** The two prompts sent to the completion service.  The f-string text is not
    modelled; a prompt is identified by the values interpolated into it. *)
Inductive prompt : Type :=
| GeneratePrompt (pdf_content : json) (empi_info : json)
                 (real_patient_id real_practitioner_id : json)
| FixPrompt (draft_json : json) (error_text : string).

(** One row of the [audit_log] table.  [json.dumps] is taken as injective, so
    a column holds the value that was serialised, [None] for SQL NULL. *)
Record AuditRecord : Type := {
  a_operation : string;
  a_input_data : option json;
  a_output_data : option json;
  a_success : json;
  a_error_message : option string;
  a_retry_count : Z
}.

Record World : Type := {
  tick : nat;                    (* interactions with the outside so far *)
  heap : list json;              (* dict objects that are updated in place *)
  audit_log : list AuditRecord;  (* rows of audit_log, oldest first *)
  sent : list request            (* HTTP requests sent, oldest first *)
}.

Record Env : Type := {
  (* httpx: the answer to the request sent at a given tick, or the exception
     the client raises (connection refused, timeout, ...) *)
  http : nat -> request -> exn response;
  (* client.chat.completions.create(...) followed by
     response.choices[0].message.content *)
  llm : nat -> prompt -> exn string;
  (* json.loads on a str: the value, or JSONDecodeError *)
  json_loads : string -> exn json;
  (* client.FHIRClient(settings=None); servicerequest.ServiceRequest(r) *)
  fhirclient_parse : json -> exn unit;
  (* whether the INSERT executed at a given tick succeeds *)
  sqlite_insert_ok : nat -> bool;
  (* str(x) as used inside an f-string *)
  py_str : json -> string;
  (* Path(p).exists(), str(Path(p)), open(p, "rb") *)
  path_exists : string -> bool;
  path_str : string -> string;
  open_file : string -> exn unit
}.

(** ** The monad of effectful Python code *)

Definition M (A : Type) : Type := World -> exn A * World.

Definition ret {A} (a : A) : M A := fun w => (Ok a, w).

Definition bind {A B} (m : M A) (k : A -> M B) : M B :=
  fun w =>
    match m w with
    | (Ok a, w') => k a w'
    | (Raise msg, w') => (Raise msg, w')
    end.

Definition raise {A} (msg : string) : M A := fun w => (Raise msg, w).

(** A pure expression that may raise. *)
Definition lift {A} (x : exn A) : M A := fun w => (x, w).

(** [try: m  except Exception as e: h(str(e))].  Effects of [m] before the
    exception stay. *)
Definition try_catch {A} (m : M A) (h : string -> M A) : M A :=
  fun w =>
    match m w with
    | (Ok a, w') => (Ok a, w')
    | (Raise msg, w') => h msg w'
    end.

Notation "x <- m ;; k" := (bind m (fun x => k))
  (at level 100, m at next level, right associativity).
Notation "m ;;; k" := (bind m (fun _ => k))
  (at level 100, right associativity).

(** ** agent_app/tools.py *)

Section Tools.

Context (E : Env).

(** [await self.client.post(...)] / [await self.client.get(...)]: the request
    goes out, then the client returns a response or raises. *)
Definition http_send (rq : request) : M response :=
  fun w =>
    (http E (tick w) rq,
     {| tick := S (tick w); heap := heap w;
        audit_log := audit_log w; sent := sent w ++ [rq] |}).

Definition validation (valid : bool) (errors : list json) : dict :=
  [("valid", JBool valid); ("errors", JList errors)].

(** The [for issue in issues] loop of [validate_fhir]. *)
Fixpoint collect_errors (issues : list json) (errors : list json)
  : exn (list json) :=
  match issues with
  | [] => Ok errors
  | issue :: rest =>
      exn_bind (py_get issue "severity" JNull) (fun sev =>
      if py_eq_str sev "error" || py_eq_str sev "fatal" then
        exn_bind (py_get issue "diagnostics" (JStr "Unknown error")) (fun diag =>
        collect_errors rest (errors ++ [diag]))
      else collect_errors rest errors)
  end.

(** The inner [try] of [validate_fhir]; [Some r] is an early [return r]. *)
Definition validate_local (resource_json : json) : M (option dict) :=
  try_catch
    (rt <- lift (py_get resource_json "resourceType" JNull) ;;
     if py_eq_str rt "ServiceRequest" then
       lift (fhirclient_parse E resource_json) ;;;
       ret None
     else
       ret (Some (validation false
                    [JStr "Only ServiceRequest resources supported"])))
    (fun e =>
       ret (Some (validation false [JStr ("FHIR validation failed: " +:+ e)]))).

Definition validate_url (base_url : string) : string :=
  base_url +:+ "/ServiceRequest/$validate".

(** [FHIRTools.validate_fhir] *)
Definition validate_fhir (base_url : string) (resource_json : json) : M dict :=
  try_catch
    (early <- validate_local resource_json ;;
     match early with
     | Some r => ret r
     | None =>
         response <- http_send {| rq_method := POST;
                                  rq_url := validate_url base_url;
                                  rq_params := [];
                                  rq_json := Some resource_json |} ;;
         if status_code response =? 200 then
           result <- lift (body_json response) ;;
           rt <- lift (py_get result "resourceType" JNull) ;;
           if py_eq_str rt "OperationOutcome" then
             issues <- lift (py_get result "issue" (JList [])) ;;
             items <- lift (py_iter issues) ;;
             errors <- lift (collect_errors items []) ;;
             if truthy (JList errors) then ret (validation false errors)
             else ret (validation true [])
           else ret (validation true [])
         else
           ret (validation false
                  [JStr ("HTTP " +:+ pretty (status_code response) +:+ ": "
                         +:+ text response)])
     end)
    (fun e => ret (validation false [JStr e])).

(** [FHIRTools.post_fhir] *)
Definition post_fhir (base_url : string) (resource_json : json) : M dict :=
  try_catch
    (response <- http_send {| rq_method := POST;
                              rq_url := base_url +:+ "/ServiceRequest";
                              rq_params := [];
                              rq_json := Some resource_json |} ;;
     if (status_code response =? 200) || (status_code response =? 201) then
       result <- lift (body_json response) ;;
       rid <- lift (py_get result "id" JNull) ;;
       ret [("success", JBool true);
            ("status_code", JNum (status_code response));
            ("resource_id", rid);
            ("response", result)]
     else
       ret [("success", JBool false);
            ("status_code", JNum (status_code response));
            ("error", JStr (text response))])
    (fun e => ret [("success", JBool false); ("error", JStr e)]).

(** [json.dumps(x) if x else None] *)
Definition dumps_if (x : json) : option json :=
  if truthy x then Some x else None.

(** [AuditLogger.log_operation]: one INSERT; a failing INSERT is logged and
    swallowed. *)
Definition log_operation (operation : string) (input_data output_data : json)
    (success : json) (error_message : option string) (retry_count : Z)
  : M unit :=
  fun w =>
    let row := {| a_operation := operation;
                  a_input_data := dumps_if input_data;
                  a_output_data := dumps_if output_data;
                  a_success := success;
                  a_error_message := error_message;
                  a_retry_count := retry_count |} in
    (Ok tt,
     {| tick := S (tick w); heap := heap w;
        audit_log := if sqlite_insert_ok E (tick w)
                     then audit_log w ++ [row] else audit_log w;
        sent := sent w |}).

Definition failure (e : string) : dict :=
  [("success", JBool false); ("error", JStr e)].

Definition http_failure (r : response) : dict :=
  failure ("HTTP " +:+ pretty (status_code r) +:+ ": " +:+ text r).

(** [PDFExtractor.extract_pdf]; what [response.json()] gives is returned as
    it is, so the result is any JSON value. *)
Definition extract_pdf (service_url : string) (file_path : string) : M json :=
  try_catch
    (lift (open_file E file_path) ;;;
     response <- http_send {| rq_method := POST;
                              rq_url := service_url +:+ "/extract";
                              rq_params := [];
                              rq_json := None |} ;;
     if status_code response =? 200 then lift (body_json response)
     else ret (JObj (http_failure response)))
    (fun e => ret (JObj (failure e))).

(** [EMPILookup.lookup_patient(email=email)] *)
Definition lookup_patient (service_url : string) (email : option string)
  : M json :=
  try_catch
    (let params :=
       match email with
       | Some e => if truthy (JStr e) then [("email", JStr e)] else []
       | None => []
       end in
     response <- http_send {| rq_method := GET;
                              rq_url := service_url +:+ "/patient";
                              rq_params := params;
                              rq_json := None |} ;;
     if status_code response =? 200 then lift (body_json response)
     else ret (JObj (http_failure response)))
    (fun e => ret (JObj (failure e))).

End Tools.

(** ** agent_app/graph.py *)

(** [AgentState].  Every key is present in the state that [process_referral]
    builds, so the TypedDict is a record and [state.get(k, default)] is the
    field.  [validation_result] and [posting_result] only ever hold dicts
    built by [validate_fhir] and [post_fhir].  [empi_data] is the one object
    of the state that the code updates in place: the field holds a reference
    into [heap], shared by every copy [{**state, ...}] of the state. *)
Record AgentState : Type := {
  pdf_path : string;
  pdf_data : json;
  empi_data : nat;
  draft_json : json;
  validation_result : dict;
  final_json : json;
  posting_result : dict;
  retry_count : Z;
  error_message : string
}.

(** [{**state, "draft_json": v}] and the like. *)
Definition with_draft_json (v : json) (s : AgentState) : AgentState :=
  {| pdf_path := pdf_path s; pdf_data := pdf_data s; empi_data := empi_data s;
     draft_json := v; validation_result := validation_result s;
     final_json := final_json s; posting_result := posting_result s;
     retry_count := retry_count s; error_message := error_message s |}.

Definition with_validation_result (v : dict) (s : AgentState) : AgentState :=
  {| pdf_path := pdf_path s; pdf_data := pdf_data s; empi_data := empi_data s;
     draft_json := draft_json s; validation_result := v;
     final_json := final_json s; posting_result := posting_result s;
     retry_count := retry_count s; error_message := error_message s |}.

Definition with_final_json (v : json) (s : AgentState) : AgentState :=
  {| pdf_path := pdf_path s; pdf_data := pdf_data s; empi_data := empi_data s;
     draft_json := draft_json s; validation_result := validation_result s;
     final_json := v; posting_result := posting_result s;
     retry_count := retry_count s; error_message := error_message s |}.

Definition with_posting_result (v : dict) (s : AgentState) : AgentState :=
  {| pdf_path := pdf_path s; pdf_data := pdf_data s; empi_data := empi_data s;
     draft_json := draft_json s; validation_result := validation_result s;
     final_json := final_json s; posting_result := v;
     retry_count := retry_count s; error_message := error_message s |}.

Definition with_retry_count (v : Z) (s : AgentState) : AgentState :=
  {| pdf_path := pdf_path s; pdf_data := pdf_data s; empi_data := empi_data s;
     draft_json := draft_json s; validation_result := validation_result s;
     final_json := final_json s; posting_result := posting_result s;
     retry_count := v; error_message := error_message s |}.

Definition with_error_message (v : string) (s : AgentState) : AgentState :=
  {| pdf_path := pdf_path s; pdf_data := pdf_data s; empi_data := empi_data s;
     draft_json := draft_json s; validation_result := validation_result s;
     final_json := final_json s; posting_result := posting_result s;
     retry_count := retry_count s; error_message := v |}.

(** *** Strings: [strip], [find], slices

    Strings are byte strings here; offsets agree with Python's on ASCII. *)

Definition is_space (c : ascii) : bool :=
  let n := nat_of_ascii c in
  (((9 <=? n) && (n <=? 13)) || ((28 <=? n) && (n <=? 32)))%nat.

Fixpoint lstrip (s : string) : string :=
  match s with
  | EmptyString => EmptyString
  | String c s' => if is_space c then lstrip s' else s
  end.

Fixpoint rstrip (s : string) : string :=
  match s with
  | EmptyString => EmptyString
  | String c s' =>
      match rstrip s' with
      | EmptyString => if is_space c then EmptyString else String c EmptyString
      | r => String c r
      end
  end.

Definition py_strip (s : string) : string := rstrip (lstrip s).

(** [content[json_start:json_end]] where [json_end] is the result of
    [find]: [None] is Python's [-1], which as a slice bound means "all but the
    last character". *)
Definition slice_to_find (content : string) (json_start : nat)
    (json_end : option nat) : string :=
  let stop := match json_end with
              | Some e => e
              | None => (String.length content - 1)%nat
              end in
  substring json_start (stop - json_start) content.

Definition fence : string := "```json".
Definition fence_close : string := "```".

Section Graph.

Context (E : Env).

(** [FHIRTools()]: the default [base_url]. *)
Definition fhir_base_url : string := "http://localhost:8080/fhir".

Definition max_retries : Z := 3.

(** Reading the object a reference points to; a reference that points
    nowhere reads as [None]. *)
Definition deref (l : nat) (w : World) : json := default JNull (heap w !! l).

Definition heap_read (l : nat) : M json := fun w => (Ok (deref l w), w).

(** [obj[k] = v] on the object behind a reference. *)
Definition heap_setitem (l : nat) (k : string) (v : json) : M unit :=
  fun w =>
    match setitem_key (deref l w) k v with
    | Ok o => (Ok tt, {| tick := tick w; heap := <[l := o]> (heap w);
                         audit_log := audit_log w; sent := sent w |})
    | Raise msg => (Raise msg, w)
    end.

(** [await client.chat.completions.create(...)] and reading
    [response.choices[0].message.content]. *)
Definition llm_call (p : prompt) : M string :=
  fun w =>
    (llm E (tick w) p,
     {| tick := S (tick w); heap := heap w;
        audit_log := audit_log w; sent := sent w |}).

(** "Parse JSON from response": plain parse first, then the fenced block. *)
Definition parse_llm_json (raw : string) : M json :=
  let content := py_strip raw in
  match json_loads E content with
  | Ok v => ret v
  | Raise _ =>
      match index 0 fence content with
      | Some i =>
          let json_start := (i + 7)%nat in
          let json_end := index json_start fence_close content in
          let json_str := py_strip (slice_to_find content json_start json_end) in
          lift (json_loads E json_str)
      | None => raise "Could not parse JSON from LLM response"
      end
  end.

(** The first [entry] of a FHIR search result: [data["entry"][0]["resource"]["id"]],
    guarded by [data.get("entry") and len(data["entry"]) > 0]. *)
Definition first_entry_id (data : json) : exn (option json) :=
  exn_bind (py_get data "entry" JNull) (fun entry =>
  if truthy entry then
    exn_bind (getitem_key data "entry") (fun entry' =>
    exn_bind (py_len entry') (fun n =>
    if n >? 0 then
      exn_bind (getitem_0 entry') (fun first =>
      exn_bind (getitem_key first "resource") (fun res =>
      exn_bind (getitem_key res "id") (fun id => Ok (Some id))))
    else Ok None))
  else Ok None).

Definition search_one (kind : string) : M (option json) :=
  response <- http_send E {| rq_method := GET;
                           rq_url := fhir_base_url +:+ "/" +:+ kind
                                     +:+ "?_count=1";
                           rq_params := [];
                           rq_json := None |} ;;
  if status_code response =? 200 then
    data <- lift (body_json response) ;;
    lift (first_entry_id data)
  else ret None.

(** "Get a real patient ID from the FHIR server": the value left in
    [real_patient_id] ([JNull] for [None]).  Once the id is assigned it stays
    assigned even if one of the two updates of [empi_info] raises; the
    exception is swallowed by the same handler either way. *)
Definition get_real_patient_id (empi_info : nat) : M json :=
  try_catch
    (found <- search_one "Patient" ;;
     match found with
     | Some real_patient_id =>
         try_catch
           (heap_setitem empi_info "id" real_patient_id ;;;
            heap_setitem empi_info "reference"
              (JStr ("Patient/" +:+ py_str E real_patient_id)) ;;;
            ret real_patient_id)
           (fun _ => ret real_patient_id)
     | None => ret JNull
     end)
    (fun _ => ret JNull).

Definition get_real_practitioner_id : M json :=
  try_catch
    (found <- search_one "Practitioner" ;;
     match found with
     | Some real_practitioner_id => ret real_practitioner_id
     | None => ret JNull
     end)
    (fun _ => ret JNull).

(** [pdf_content[:500] + "..." if len(pdf_content) > 500 else pdf_content] *)
Definition pdf_summary (pdf_content : json) : exn json :=
  exn_bind (py_len pdf_content) (fun n =>
  if n >? 500 then
    match pdf_content with
    | JStr s => Ok (JStr (substring 0 500 s +:+ "..."))
    | JList _ => Raise "can only concatenate list (not 'str') to list"
    | _ => Raise "unhashable type: 'slice'"
    end
  else Ok pdf_content).

Definition no_patients : string :=
  "No patients found in FHIR server. Please ensure patients are loaded before processing referrals.".

Definition no_practitioners : string :=
  "No practitioners found in FHIR server. Please ensure practitioners are loaded before processing referrals.".

(** The [try] block of [generator]. *)
Definition generator_body (state : AgentState) : M AgentState :=
  data <- lift (getitem_key (pdf_data state) "data") ;;
  pdf_content <- lift (getitem_key data "text_content") ;;
  let empi_info := empi_data state in
  real_patient_id <- get_real_patient_id empi_info ;;
  if negb (truthy real_patient_id) then raise no_patients else
  real_practitioner_id <- get_real_practitioner_id ;;
  if negb (truthy real_practitioner_id) then raise no_practitioners else
  empi_now <- heap_read empi_info ;;
  raw <- llm_call (GeneratePrompt pdf_content empi_now
                     real_patient_id real_practitioner_id) ;;
  draft <- parse_llm_json raw ;;
  summary <- lift (pdf_summary pdf_content) ;;
  log_operation E "generator" (JObj [("pdf_content", summary)]) draft
    (JBool true) None 0 ;;;
  ret (with_draft_json draft state).

(** The [except Exception as e] block of [generator]. *)
Definition generator_handler (state : AgentState) (e : string)
  : M AgentState :=
  log_operation E "generator" (pdf_data state) JNull (JBool false) (Some e) 0 ;;;
  ret (with_error_message e state).

Definition generator (state : AgentState) : M AgentState :=
  try_catch (generator_body state) (generator_handler state).

Definition is_valid (validation_result : dict) : json :=
  dict_get_default validation_result "valid" (JBool false).

Definition validator_body (state : AgentState) : M AgentState :=
  let draft := draft_json state in
  result <- validate_fhir E fhir_base_url draft ;;
  log_operation E "validator" draft (JObj result) (is_valid result) None 0 ;;;
  if truthy (is_valid result) then
    ret (with_final_json draft (with_validation_result result state))
  else
    ret (with_validation_result result state).

Definition validator_handler (state : AgentState) (e : string)
  : M AgentState :=
  log_operation E "validator" (draft_json state) JNull (JBool false) (Some e) 0 ;;;
  ret (with_error_message e state).

Definition validator (state : AgentState) : M AgentState :=
  try_catch (validator_body state) (validator_handler state).

(** ["\n".join(errors)] *)
Definition join_errors (errors : json) : exn string :=
  exn_bind (py_iter errors) join_lines.

Definition fixer_body (state : AgentState) : M AgentState :=
  let draft := draft_json state in
  let errors := dict_get_default (validation_result state) "errors" (JList []) in
  if negb (truthy errors) then ret (with_final_json draft state) else
  error_text <- lift (join_errors errors) ;;
  raw <- llm_call (FixPrompt draft error_text) ;;
  fixed_json <- parse_llm_json raw ;;
  log_operation E "fixer" (JObj [("draft_json", draft); ("errors", errors)])
    fixed_json (JBool true) None (retry_count state) ;;;
  ret (with_retry_count (retry_count state + 1)
         (with_draft_json fixed_json state)).

Definition fixer_handler (state : AgentState) (e : string) : M AgentState :=
  log_operation E "fixer"
    (JObj [("draft_json", draft_json state);
           ("errors", dict_get_default (validation_result state) "errors"
                        (JList []))])
    JNull (JBool false) (Some e) (retry_count state) ;;;
  ret (with_error_message e state).

Definition fixer (state : AgentState) : M AgentState :=
  try_catch (fixer_body state) (fixer_handler state).

Definition poster_body (state : AgentState) : M AgentState :=
  let final := final_json state in
  result <- post_fhir E fhir_base_url final ;;
  log_operation E "poster" final (JObj result)
    (dict_get_default result "success" (JBool false)) None 0 ;;;
  ret (with_posting_result result state).

Definition poster_handler (state : AgentState) (e : string) : M AgentState :=
  log_operation E "poster" (final_json state) JNull (JBool false) (Some e) 0 ;;;
  ret (with_error_message e state).

Definition poster (state : AgentState) : M AgentState :=
  try_catch (poster_body state) (poster_handler state).

Definition logger_body (state : AgentState) : M AgentState :=
  empi_now <- heap_read (empi_data state) ;;
  log_operation E "complete_workflow"
    (JObj [("pdf_path", JStr (pdf_path state));
           ("pdf_data", pdf_data state);
           ("empi_data", empi_now)])
    (JObj [("final_json", final_json state);
           ("posting_result", JObj (posting_result state));
           ("retry_count", JNum (retry_count state))])
    (dict_get_default (posting_result state) "success" (JBool false))
    None 0 ;;;
  ret state.

Definition logger_node (state : AgentState) : M AgentState :=
  try_catch (logger_body state)
    (fun e => ret (with_error_message e state)).

(** *** Routing logic *)

(** The labels [should_retry] returns: "post", "fix", "end". *)
Inductive retry_route : Type := r_post | r_fix | r_end.

Definition should_retry (state : AgentState) : retry_route :=
  let validation_result := validation_result state in
  let retry_count := retry_count state in
  if truthy (dict_get_default validation_result "valid" (JBool false)) then r_post
  else if retry_count <? max_retries then r_fix
  else r_end.

(** The labels [should_continue] returns: "log", "end". *)
Inductive continue_route : Type := c_log | c_end.

Definition should_continue (state : AgentState) : continue_route :=
  if truthy (JObj (posting_result state)) then c_log else c_end.

(** *** The graph of [create_graph] and its execution *)

Inductive node : Type := Generator | Validator | Fixer | Poster | Logger.

Definition run_node (n : node) : AgentState -> M AgentState :=
  match n with
  | Generator => generator
  | Validator => validator
  | Fixer => fixer
  | Poster => poster
  | Logger => logger_node
  end.

(** The edges; [None] is [END]. *)
Definition next_node (n : node) (state : AgentState) : option node :=
  match n with
  | Generator => Some Validator
  | Validator =>
      match should_retry state with
      | r_post => Some Poster
      | r_fix => Some Fixer
      | r_end => Some Logger
      end
  | Fixer => Some Validator
  | Poster =>
      match should_continue state with
      | c_log => Some Logger
      | c_end => None
      end
  | Logger => None
  end.

(** One step of a run: the node about to execute, on which state, in which
    world. *)
Record config : Type := {
  c_node : node;
  c_state : AgentState;
  c_world : World
}.

(** Running the compiled graph from a node.  The graph library executes one
    node per step and gives up with [GraphRecursionError] once [limit] steps
    were taken without reaching [END].  The result comes with the list of
    steps taken, in order. *)
Fixpoint run_from (limit : nat) (n : node) (state : AgentState) (w : World)
  : list config * (exn AgentState * World) :=
  match limit with
  | O => ([], (Raise "GraphRecursionError", w))
  | S limit' =>
      let here := {| c_node := n; c_state := state; c_world := w |} in
      match run_node n state w with
      | (Ok state', w') =>
          match next_node n state' with
          | Some n' =>
              let (steps, r) := run_from limit' n' state' w' in
              (here :: steps, r)
          | None => ([here], (Ok state', w'))
          end
      | (Raise msg, w') => ([here], (Raise msg, w'))
      end
  end.

(** [graph.ainvoke(initial_state, config)]: entry point [generator]. *)
Definition ainvoke (limit : nat) (initial_state : AgentState) (w : World)
  : list config * (exn AgentState * World) :=
  run_from limit Generator initial_state w.

(** The graph library's default [recursion_limit]. *)
Definition default_recursion_limit : nat := 25.

End Graph.

(** ** agent_app/main.py *)

Section Main.

Context (E : Env).

(** [PDFExtractor()] and [EMPILookup()]: the default service URLs. *)
Definition pdf_service_url : string := "http://localhost:7001".
Definition empi_service_url : string := "http://localhost:7002".

(** A new dict object; the result is the reference to it. *)
Definition alloc (v : json) : M nat :=
  fun w =>
    (Ok (length (heap w)),
     {| tick := tick w; heap := heap w ++ [v];
        audit_log := audit_log w; sent := sent w |}).

(** "Initialize state" *)
Definition initial_state (pdf_file : string) (pdf_result : json)
    (empi_data : nat) : AgentState :=
  {| pdf_path := pdf_file;
     pdf_data := pdf_result;
     empi_data := empi_data;
     draft_json := JObj [];
     validation_result := [];
     final_json := JObj [];
     posting_result := [];
     retry_count := 0;
     error_message := EmptyString |}.

(** "Optional EMPI lookup": the value bound to [empi_data]. *)
Definition optional_empi_lookup (patient_email : option string) : M json :=
  match patient_email with
  | Some email =>
      if truthy (JStr email) then
        empi_result <- lookup_patient E empi_service_url (Some email) ;;
        found <- lift (py_get empi_result "success" (JBool false)) ;;
        if truthy found then lift (py_get empi_result "patient" (JObj []))
        else ret (JObj [])
      else ret (JObj [])
  | None => ret (JObj [])
  end.

(** [process_referral] up to and including "Initialize state". *)
Definition prepare_state (pdf_path : string) (patient_email : option string)
  : M AgentState :=
  if negb (path_exists E pdf_path) then
    raise ("PDF file not found: " +:+ pdf_path)
  else
    pdf_result <- extract_pdf E pdf_service_url (path_str E pdf_path) ;;
    extracted <- lift (py_get pdf_result "success" (JBool false)) ;;
    if negb (truthy extracted) then
      err <- lift (py_get pdf_result "error" JNull) ;;
      raise ("PDF extraction failed: " +:+ py_str E err)
    else
      empi_value <- optional_empi_lookup patient_email ;;
      empi_data <- alloc empi_value ;;
      ret (initial_state (path_str E pdf_path) pdf_result empi_data).

(** "Check for errors" and "Return success result" *)
Definition referral_result (pdf_path : string) (result : AgentState) : dict :=
  if truthy (JStr (error_message result)) then
    [("success", JBool false);
     ("error", JStr (error_message result));
     ("retry_count", JNum (retry_count result))]
  else
    [("success", JBool true);
     ("pdf_path", JStr pdf_path);
     ("final_json", final_json result);
     ("posting_result", JObj (posting_result result));
     ("retry_count", JNum (retry_count result));
     ("resource_id",
      dict_get_default (posting_result result) "resource_id" JNull)].

(** [await self.graph.ainvoke(initial_state, config)] as a computation. *)
Definition run_workflow (limit : nat) (state : AgentState) : M AgentState :=
  fun w => snd (ainvoke E limit state w).

(** [ReferralRouter.process_referral] *)
Definition process_referral (limit : nat) (pdf_path : string)
    (patient_email : option string) : M dict :=
  try_catch
    (state <- prepare_state pdf_path patient_email ;;
     result <- run_workflow limit state ;;
     ret (referral_result pdf_path result))
    (fun e => ret (failure e)).

End Main.

(** ** Definitions used by the statements *)

(** The [try] block of each node. *)
Definition node_body (E : Env) (n : node) : AgentState -> M AgentState :=
  match n with
  | Generator => generator_body E
  | Validator => validator_body E
  | Fixer => fixer_body E
  | Poster => poster_body E
  | Logger => logger_body E
  end.

(** The step at [c] ends in its [except] block. *)
Definition step_raises (E : Env) (c : config) : bool :=
  match node_body E (c_node c) (c_state c) (c_world c) with
  | (Raise _, _) => true
  | (Ok _, _) => false
  end.

(** [validation_result.get("valid", False)] is true. *)
Definition outcome_valid (state : AgentState) : bool :=
  truthy (is_valid (validation_result state)).

(** [validation_result.get("errors", [])] *)
Definition outcome_errors (state : AgentState) : json :=
  dict_get_default (validation_result state) "errors" (JList []).

(** [final_json] is set exactly when the recorded outcome is valid. *)
Definition final_matches_outcome (state : AgentState) : Prop :=
  truthy (final_json state) = outcome_valid state.

(** Rows written to the audit table between two worlds. *)
Definition rows_written (w w' : World) : Z :=
  Z.of_nat (length (audit_log w')) - Z.of_nat (length (audit_log w)).

(** The request [validate_fhir] sends. *)
Definition validate_request (base_url : string) (resource_json : json)
  : request :=
  {| rq_method := POST; rq_url := validate_url base_url;
     rq_params := []; rq_json := Some resource_json |}.

(** The router of the specification (section 4.2), written from its words:
    Submit if the outcome is valid; else Repair if retryCount is below the
    ceiling; else Abort. *)
Inductive decision : Type := Submit | Repair | Abort.

Definition decideAfterValidate (valid : bool) (retryCount ceiling : Z)
  : decision :=
  if valid then Submit
  else if retryCount <? ceiling then Repair
  else Abort.

Definition decision_of_route (r : retry_route) : decision :=
  match r with
  | r_post => Submit
  | r_fix => Repair
  | r_end => Abort
  end.

(** ** Concrete environments *)

Definition dq : string := String (ascii_of_nat 34) EmptyString.

(** [json.dumps] for values whose strings need no escaping. *)
Fixpoint dumps (j : json) : string :=
  match j with
  | JNull => "null"
  | JBool true => "true"
  | JBool false => "false"
  | JNum z => pretty z
  | JStr s => dq +:+ s +:+ dq
  | JList l =>
      "[" +:+
      (fix items (l : list json) : string :=
         match l with
         | [] => EmptyString
         | [x] => dumps x
         | x :: rest => dumps x +:+ ", " +:+ items rest
         end) l +:+ "]"
  | JObj d =>
      "{" +:+
      (fix members (d : dict) : string :=
         match d with
         | [] => EmptyString
         | [(k, v)] => dq +:+ k +:+ dq +:+ ": " +:+ dumps v
         | (k, v) :: rest =>
             dq +:+ k +:+ dq +:+ ": " +:+ dumps v +:+ ", " +:+ members rest
         end) d +:+ "}"
  end.

(** A decoder that inverts [dumps] on the given values and rejects any other
    text. *)
Fixpoint loads_among (known : list json) (s : string) : exn json :=
  match known with
  | [] => Raise "Expecting value: line 1 column 1 (char 0)"
  | v :: rest => if String.eqb (dumps v) s then Ok v else loads_among rest s
  end.

Definition str_of (j : json) : string :=
  match j with
  | JStr s => s
  | _ => dumps j
  end.

(** Four successive drafts: only the last one names a requester. *)
Definition draft0 : json :=
  JObj [("resourceType", JStr "ServiceRequest"); ("status", JStr "draft")].
Definition draft1 : json :=
  JObj [("resourceType", JStr "ServiceRequest"); ("status", JStr "active")].
Definition draft2 : json :=
  JObj [("resourceType", JStr "ServiceRequest"); ("status", JStr "active");
        ("intent", JStr "order")].
Definition draft3 : json :=
  JObj [("resourceType", JStr "ServiceRequest"); ("status", JStr "active");
        ("intent", JStr "order");
        ("requester", JObj [("reference", JStr "Practitioner/d1")])].

Definition bundle_of (id : string) : json :=
  JObj [("resourceType", JStr "Bundle");
        ("entry", JList [JObj [("resource", JObj [("id", JStr id)])]])].

Definition outcome_of (issues : list json) : json :=
  JObj [("resourceType", JStr "OperationOutcome"); ("issue", JList issues)].

Definition missing_requester : json :=
  JObj [("severity", JStr "error");
        ("diagnostics", JStr "Missing required field: requester")].

Definition answer (status : Z) (body : json) : exn response :=
  Ok {| status_code := status; text := dumps body; body_json := Ok body |}.

(** A registry with one patient and one practitioner, whose validator wants
    a requester; a PDF service that extracts text; an EMPI that knows nobody. *)
Definition demo_http (t : nat) (rq : request) : exn response :=
  let url := rq_url rq in
  if String.eqb url (fhir_base_url +:+ "/Patient?_count=1") then
    answer 200 (bundle_of "p1")
  else if String.eqb url (fhir_base_url +:+ "/Practitioner?_count=1") then
    answer 200 (bundle_of "d1")
  else if String.eqb url (validate_url fhir_base_url) then
    match rq_json rq with
    | Some (JObj d) =>
        match dict_get d "requester" with
        | Some _ => answer 200 (outcome_of [])
        | None => answer 200 (outcome_of [missing_requester])
        end
    | _ => answer 200 (outcome_of [missing_requester])
    end
  else if String.eqb url (fhir_base_url +:+ "/ServiceRequest") then
    answer 201 (JObj [("resourceType", JStr "ServiceRequest");
                      ("id", JStr "posted-request-123")])
  else if String.eqb url (pdf_service_url +:+ "/extract") then
    answer 200 (JObj [("success", JBool true);
                      ("data", JObj [("text_content", JStr "Test PDF content");
                                     ("filename", JStr "test.pdf")])])
  else
    Ok {| status_code := 404; text := "Patient not found";
          body_json := Raise "Expecting value: line 1 column 1 (char 0)" |}.

(** The completion service improves the draft it is shown by one step. *)
Definition demo_llm (t : nat) (p : prompt) : exn string :=
  match p with
  | GeneratePrompt _ _ _ _ => Ok (dumps draft0)
  | FixPrompt (JObj [_; (_, JStr "draft")]) _ => Ok (dumps draft1)
  | FixPrompt (JObj [_; _]) _ => Ok (dumps draft2)
  | FixPrompt _ _ => Ok (dumps draft3)
  end.

Definition demo_env : Env :=
  {| http := demo_http;
     llm := demo_llm;
     json_loads := loads_among [draft0; draft1; draft2; draft3];
     fhirclient_parse := fun _ => Ok tt;
     sqlite_insert_ok := fun _ => true;
     py_str := str_of;
     path_exists := fun _ => true;
     path_str := fun p => p;
     open_file := fun _ => Ok tt |}.

(** Nothing outside answers: every request and every completion call
    raises. *)
Definition offline_env : Env :=
  {| http := fun _ _ => Raise "All connection attempts failed";
     llm := fun _ _ => Raise "Connection error.";
     json_loads := loads_among [];
     fhirclient_parse := fun _ => Ok tt;
     sqlite_insert_ok := fun _ => true;
     py_str := str_of;
     path_exists := fun _ => true;
     path_str := fun p => p;
     open_file := fun _ => Ok tt |}.

(** A world in which one empty dict has been allocated for [empi_data]. *)
Definition world0 : World :=
  {| tick := 0; heap := [JObj []]; audit_log := []; sent := [] |}.

Definition extracted : json :=
  JObj [("success", JBool true);
        ("data", JObj [("text_content", JStr "Test PDF content");
                       ("filename", JStr "test.pdf")])].

Definition state0 : AgentState := initial_state "referral.pdf" extracted 0.

(** ** Definitions used by the proofs *)

(** A computation that leaves a component [f] of the world as it was,
    whether it returns or raises. *)
Definition keeps {X A} (f : World -> X) (m : M A) : Prop :=
  forall w, f (snd (m w)) = f w.

(** A computation that never raises. *)
Definition total {A} (m : M A) : Prop :=
  forall w, exists a w', m w = (Ok a, w').

(** One call of [log_operation] between two worlds: one row more when the
    INSERT goes through, none otherwise. *)
Definition one_log (E : Env) (w w' : World) : Prop :=
  exists t row,
    audit_log w' =
    if sqlite_insert_ok E t then audit_log w ++ [row] else audit_log w.

(** What [validator] returns for an outcome [r]. *)
Definition validated (r : dict) (s : AgentState) : AgentState :=
  if truthy (is_valid r)
  then with_final_json (draft_json s) (with_validation_result r s)
  else with_validation_result r s.


(** What a node returns, by node. *)
Definition node_result (E : Env) (n : node) (s : AgentState) (w : World)
    (s' : AgentState) (w' : World) : Prop :=
  match n with
  | Generator =>
      (exists d, s' = with_draft_json d s) \/
      (exists e, s' = with_error_message e s)
  | Validator =>
      exists r, s' = validated r s /\
        ((r = validation true [] /\ truthy (draft_json s) = true) \/
         exists errs, r = validation false errs /\ truthy (JList errs) = true)
  | Fixer =>
      (truthy (outcome_errors s) = false /\
       s' = with_final_json (draft_json s) s /\ w' = w) \/
      (truthy (outcome_errors s) = true /\
       ((exists d, s' = with_retry_count (retry_count s + 1)
                          (with_draft_json d s) /\
                   fst (fixer_body E s w) = Ok s') \/
        (exists e, s' = with_error_message e s /\
                   fst (fixer_body E s w) = Raise e)))
  | Poster => exists r, s' = with_posting_result r s /\ truthy (JObj r) = true
  | Logger => s' = s
  end.

(** [retry_count] is within the ceiling, and below it where [fixer] is about
    to run. *)
Definition within_ceiling (c : config) : Prop :=
  retry_count (c_state c) <= max_retries /\
  (c_node c = Fixer -> retry_count (c_state c) < max_retries).

(** [final_json] agrees with the recorded outcome; it is still empty
    before the outcome is valid; and [fixer] is entered with errors to fix. *)
Definition outcome_recorded (c : config) : Prop :=
  final_matches_outcome (c_state c) /\
  (c_node c <> Poster -> c_node c <> Logger ->
   truthy (final_json (c_state c)) = false) /\
  (c_node c = Fixer -> truthy (outcome_errors (c_state c)) = true).

(** Steps still to come from node [n] at retry count [r], when no repair
    raises: generator, then at most [max_retries - r] rounds of validator
    and fixer, the last validator, poster and logger. *)
Definition budget (n : node) (r : Z) : Z :=
  match n with
  | Generator => 4 + 2 * (max_retries - r)
  | Validator => 3 + 2 * (max_retries - r)
  | Fixer => 2 + 2 * (max_retries - r)
  | Poster => 2
  | Logger => 1
  end.

Definition repair_succeeds (E : Env) (c : config) : Prop :=
  c_node c = Fixer -> step_raises E c = false.

(** An invalid outcome without errors, as no validation produces it. *)
Definition unexplained : AgentState :=
  with_validation_result (validation false []) (with_draft_json draft0 state0).

(** No usable answer about the patient: no email was given, or it is empty,
    or [lookup_patient] returned a dict whose [success] is not true. *)
Definition lookup_unavailable (E : Env) (patient_email : option string)
    (w : World) : Prop :=
  match patient_email with
  | None => True
  | Some email =>
      truthy (JStr email) = false \/
      exists r,
        fst (lookup_patient E empi_service_url (Some email) w) = Ok (JObj r) /\
        truthy (dict_get_default r "success" (JBool false)) = false
  end.

(** ** Further definitions used by the statements *)

(** The request [post_fhir] sends. *)
Definition post_request (base_url : string) (resource_json : json) : request :=
  {| rq_method := POST; rq_url := base_url +:+ "/ServiceRequest";
     rq_params := []; rq_json := Some resource_json |}.

(** An issue of an OperationOutcome counts against the resource:
    [issue.get("severity") in ["error", "fatal"]]. *)
Definition severe (issue : dict) : bool :=
  py_eq_str (dict_get_default issue "severity" JNull) "error"
  || py_eq_str (dict_get_default issue "severity" JNull) "fatal".

(** [issue.get("diagnostics", "Unknown error")] *)
Definition diagnostics_of (issue : dict) : json :=
  dict_get_default issue "diagnostics" (JStr "Unknown error").

(** A request that creates a resource in the registry: the POST of
    [post_fhir] with the default base URL. *)
Definition is_submission (rq : request) : bool :=
  match rq_method rq with
  | POST => String.eqb (rq_url rq) (fhir_base_url +:+ "/ServiceRequest")
  | GET => false
  end.

(** Submissions sent so far. *)
Definition submissions (w : World) : nat :=
  length (List.filter is_submission (sent w)).

Definition is_poster (c : config) : bool :=
  match c_node c with
  | Poster => true
  | _ => false
  end.

Definition is_fixer (c : config) : bool :=
  match c_node c with
  | Fixer => true
  | _ => false
  end.

(** The repair steps of a run that did not raise. *)
Definition successful_repairs (E : Env) (steps : list config) : nat :=
  length (List.filter (fun c => is_fixer c && negb (step_raises E c)) steps).

(** [poster] is entered with a valid outcome, on the draft that was
    validated. *)
Definition ready_to_post (c : config) : Prop :=
  c_node c = Poster ->
  outcome_valid (c_state c) = true /\
  final_json (c_state c) = draft_json (c_state c).

(** The completion service answers no call. *)
Definition completion_down (E : Env) : Prop :=
  forall t p, exists e, llm E t p = Raise e.

Definition only_service_request : string :=
  "Only ServiceRequest resources supported".

(** A run that cannot advance: the draft is still empty, no retry was
    counted, and the node is one of the three of the repair cycle, [fixer]
    being entered with the local rejection of the empty draft. *)
Definition stuck (c : config) : Prop :=
  draft_json (c_state c) = JObj [] /\
  retry_count (c_state c) = 0 /\
  c_node c <> Poster /\ c_node c <> Logger /\
  (c_node c = Fixer ->
   validation_result (c_state c) =
   validation false [JStr only_service_request]).


(** The requests the two service clients send. *)
Definition extract_request (service_url : string) : request :=
  {| rq_method := POST; rq_url := service_url +:+ "/extract";
     rq_params := []; rq_json := None |}.

Definition lookup_request (service_url : string) (email : option string)
  : request :=
  {| rq_method := GET; rq_url := service_url +:+ "/patient";
     rq_params := match email with
                  | Some e => if truthy (JStr e) then [("email", JStr e)] else []
                  | None => []
                  end;
     rq_json := None |}.

(** Nothing was validated and nothing was posted. *)
Definition nothing_submitted (state : AgentState) : Prop :=
  outcome_valid state = false ->
  final_json state = JObj [] /\ posting_result state = [].

(** Before [poster], the outcome recorded is not valid and nothing was
    submitted; [poster] itself is entered on a valid outcome. *)
Definition not_yet_valid (c : config) : Prop :=
  outcome_recorded c /\ ready_to_post c /\
  (c_node c <> Poster -> c_node c <> Logger ->
   outcome_valid (c_state c) = false) /\
  nothing_submitted (c_state c).

(** A completion service that returns the same draft, without a requester,
    whatever it is asked. *)
Definition stubborn_env : Env :=
  {| http := demo_http;
     llm := fun _ _ => Ok (dumps draft0);
     json_loads := loads_among [draft0];
     fhirclient_parse := fun _ => Ok tt;
     sqlite_insert_ok := fun _ => true;
     py_str := str_of;
     path_exists := fun _ => true;
     path_str := fun p => p;
     open_file := fun _ => Ok tt |}.

(** The same outside world with another fate for the INSERTs. *)
Definition with_sqlite (ok : nat -> bool) (E : Env) : Env :=
  {| http := http E;
     llm := llm E;
     json_loads := json_loads E;
     fhirclient_parse := fhirclient_parse E;
     sqlite_insert_ok := ok;
     py_str := py_str E;
     path_exists := path_exists E;
     path_str := path_str E;
     open_file := open_file E |}.

(** Two worlds that differ at most in the audit table. *)
Definition same_but_audit (w1 w2 : World) : Prop :=
  tick w1 = tick w2 /\ heap w1 = heap w2 /\ sent w1 = sent w2.

(** Two computations that return the same and keep two worlds the same but
    for the audit table. *)
Definition audit_blind {A} (m1 m2 : M A) : Prop :=
  forall w1 w2,
    same_but_audit w1 w2 ->
    fst (m1 w1) = fst (m2 w2) /\
    same_but_audit (snd (m1 w1)) (snd (m2 w2)).

Definition same_step (c1 c2 : config) : Prop :=
  c_node c1 = c_node c2 /\ c_state c1 = c_state c2 /\
  same_but_audit (c_world c1) (c_world c2).




(** ** empi_mock/main.py *)

(** [s.lower()], on ASCII letters. *)
Definition lower_ascii (c : ascii) : ascii :=
  let n := nat_of_ascii c in
  if ((65 <=? n) && (n <=? 90))%nat then ascii_of_nat (n + 32) else c.

Fixpoint py_lower (s : string) : string :=
  match s with
  | EmptyString => EmptyString
  | String c s' => String (lower_ascii c) (py_lower s')
  end.

Module EmpiMock.

Definition patient (id name born gender email phone : string)
    (street city state zip : string) : json :=
  JObj [("id", JStr id); ("name", JStr name); ("date_of_birth", JStr born);
        ("gender", JStr gender); ("email", JStr email); ("phone", JStr phone);
        ("address", JObj [("street", JStr street); ("city", JStr city);
                          ("state", JStr state); ("zip", JStr zip)])].

Definition john : json :=
  patient "patient-001" "John Doe" "1985-03-15" "male" "john.doe@email.com"
    "+1-555-0123" "123 Main St" "Anytown" "CA" "90210".

Definition jane : json :=
  patient "patient-002" "Jane Smith" "1990-07-22" "female"
    "jane.smith@email.com" "+1-555-0456" "456 Oak Ave" "Somewhere" "NY" "10001".

Definition MOCK_PATIENTS : dict :=
  [("john.doe@email.com", john); ("jane.smith@email.com", jane)].

Definition default_patient : json :=
  patient "patient-default" "Default Patient" "1980-01-01" "unknown"
    "default@example.com" "+1-555-0000" "Default St" "Default City" "XX"
    "00000".

(** The response model, as the JSON object it is serialised to. *)
Definition PatientResponse (success : bool) (patient : json) (error : json)
  : dict :=
  [("success", JBool success); ("patient", patient); ("error", error)].

(** [x.lower()] on a field of a patient: only a [str] has [lower]. *)
Definition lower_of (x : json) : exn string :=
  match x with
  | JStr s => Ok (py_lower s)
  | _ => Raise "object has no attribute 'lower'"
  end.

(** [for patient in MOCK_PATIENTS.values(): if patient["name"].lower() ==
    name.lower(): return ...]; [None] when the loop ends without a
    return. *)
Fixpoint search_by_name (patients : list json) (name : string)
  : exn (option json) :=
  match patients with
  | [] => Ok None
  | p :: rest =>
      exn_bind (getitem_key p "name") (fun n =>
      exn_bind (lower_of n) (fun l =>
      if String.eqb l (py_lower name) then Ok (Some p)
      else search_by_name rest name))
  end.

(** [for patient in MOCK_PATIENTS.values(): if patient["id"] == id:
    return ...] *)
Fixpoint search_by_id (patients : list json) (id : string)
  : exn (option json) :=
  match patients with
  | [] => Ok None
  | p :: rest =>
      exn_bind (getitem_key p "id") (fun i =>
      if py_eq_str i id then Ok (Some p) else search_by_id rest id)
  end.

(** An optional query parameter is given and not empty. *)
Definition given (x : option string) : bool :=
  match x with
  | Some s => truthy (JStr s)
  | None => false
  end.

Definition text_of (x : option string) : string :=
  match x with
  | Some s => s
  | None => EmptyString
  end.

(** The [try] block of the GET /patient handler. *)
Definition lookup_patient_body (email name id : option string) : exn dict :=
  let values := map snd MOCK_PATIENTS in
  let fallback := Ok (PatientResponse true default_patient JNull) in
  match (if given email then dict_get MOCK_PATIENTS (text_of email)
         else None) with
  | Some p => Ok (PatientResponse true p JNull)
  | None =>
      if given name then
        match search_by_name values (text_of name) with
        | Ok (Some p) => Ok (PatientResponse true p JNull)
        | Ok None => fallback
        | Raise e => Raise e
        end
      else if given id then
        match search_by_id values (text_of id) with
        | Ok (Some p) => Ok (PatientResponse true p JNull)
        | Ok None => fallback
        | Raise e => Raise e
        end
      else fallback
  end.

(** The GET /patient handler. *)
Definition lookup_patient (email name id : option string) : dict :=
  match lookup_patient_body email name id with
  | Ok r => r
  | Raise e => PatientResponse false JNull (JStr e)
  end.

End EmpiMock.

(** [params.get(k)] of a request, as the handler receives it. *)
Definition query_param (rq : request) (k : string) : option string :=
  match dict_get (rq_params rq) k with
  | Some (JStr s) => Some s
  | _ => None
  end.

(** The EMPI of the environment is the mock service: a GET to /patient is
    answered 200 with what the handler returns. *)
Definition served_by_mock (E : Env) : Prop :=
  forall t rq,
    rq_method rq = GET ->
    rq_url rq = empi_service_url +:+ "/patient" ->
    exists resp,
      http E t rq = Ok resp /\ status_code resp = 200 /\
      body_json resp =
        Ok (JObj (EmpiMock.lookup_patient (query_param rq "email")
                    (query_param rq "name") (query_param rq "id"))).

(** An environment whose EMPI is the mock service. *)
Definition mock_empi_http (t : nat) (rq : request) : exn response :=
  if String.eqb (rq_url rq) (empi_service_url +:+ "/patient") then
    answer 200
      (JObj (EmpiMock.lookup_patient (query_param rq "email")
               (query_param rq "name") (query_param rq "id")))
  else demo_http t rq.

Definition mock_empi_env : Env :=
  {| http := mock_empi_http;
     llm := demo_llm;
     json_loads := loads_among [draft0; draft1; draft2; draft3];
     fhirclient_parse := fun _ => Ok tt;
     sqlite_insert_ok := fun _ => true;
     py_str := str_of;
     path_exists := fun _ => true;
     path_str := fun p => p;
     open_file := fun _ => Ok tt |}.

(** The search [generator] sends to the registry for one resource of a
    kind. *)
Definition search_request (kind : string) : request :=
  {| rq_method := GET;
     rq_url := fhir_base_url +:+ "/" +:+ kind +:+ "?_count=1";
     rq_params := [];
     rq_json := None |}.
(** ** pdf_service/main.py *)

(** [s.endswith(suffix)] *)
Definition endswith (s suffix : string) : bool :=
  let n := String.length s in
  let k := String.length suffix in
  (k <=? n)%nat && String.eqb (String.substring (n - k) k s) suffix.

Definition newline : string := String "010" EmptyString.

Module PdfService.

(** The upload the handler receives: [file.filename], and what
    [await file.read()] gives. *)
Record UploadFile : Type := {
  filename : string;
  read : exn (list Byte.byte)
}.

(** What the file system and the two PDF libraries answer. *)
Record Lib : Type := {
  (* open(temp_path, "wb") *)
  open_wb : string -> exn unit;
  (* buffer.write(content) and leaving the [with] block *)
  write : string -> list Byte.byte -> exn unit;
  (* pdfplumber.open(temp_path) and pdf.pages on a file with these bytes:
     for each page what page.extract_text() gives (a str or None) *)
  pdfplumber_pages : list Byte.byte -> exn (list (exn (option string)));
  (* PDFReader().load_data(temp_path) on a file with these bytes: doc.text of
     each document *)
  load_data : list Byte.byte -> exn (list string);
  (* temp_path.unlink(missing_ok=True) *)
  unlink : string -> exn unit;
  (* str(HTTPException(status_code, detail)) *)
  str_http_exception : Z -> string -> string
}.

(** The paths that exist under /tmp. *)
Definition Disk : Type := list string.

(** A step of the handler: it may change the disk, and returns or raises. *)
Definition Task (A : Type) : Type := Disk -> exn A * Disk.

Definition done {A} (a : A) : Task A := fun d => (Ok a, d).

Definition fail {A} (e : string) : Task A := fun d => (Raise e, d).

Definition answer_of {A} (x : exn A) : Task A := fun d => (x, d).

Definition and_then {A B} (m : Task A) (k : A -> Task B) : Task B :=
  fun d =>
    match m d with
    | (Ok a, d') => k a d'
    | (Raise e, d') => (Raise e, d')
    end.

Section Handler.

Context (L : Lib).

(** [open(temp_path, "wb")] creates the file. *)
Definition create (path : string) : Task unit :=
  fun d =>
    match open_wb L path with
    | Ok _ => (Ok tt, path :: d)
    | Raise e => (Raise e, d)
    end.

(** [temp_path.unlink(missing_ok=True)] *)
Definition remove (path : string) : Task unit :=
  fun d =>
    match unlink L path with
    | Ok _ => (Ok tt, filter (fun p => p <> path) d)
    | Raise e => (Raise e, d)
    end.

(** [for page in pdf.pages: text = page.extract_text(); if text:
    extracted_text += text + "\n"] *)
Fixpoint page_texts (pages : list (exn (option string)))
    (extracted_text : string) : exn string :=
  match pages with
  | [] => Ok extracted_text
  | Ok (Some text) :: rest =>
      if truthy (JStr text)
      then page_texts rest (extracted_text +:+ text +:+ newline)
      else page_texts rest extracted_text
  | Ok None :: rest => page_texts rest extracted_text
  | Raise e :: _ => Raise e
  end.

(** The inner [try]: the reader's output is appended when it gives
    documents; its exception is logged and dropped. *)
Definition enhanced (content : list Byte.byte) (extracted_text : string)
  : string :=
  match load_data L content with
  | Ok (doc :: docs) =>
      extracted_text +:+ newline +:+ newline +:+ "Enhanced extraction:"
      +:+ newline +:+ String.concat newline (doc :: docs)
  | Ok [] => extracted_text
  | Raise _ => extracted_text
  end.

Definition temp_path (file : UploadFile) : string := "/tmp/" +:+ filename file.

(** The [try] block of the POST /extract handler, up to [extraction_data].
    [pdf] is bound whenever [extraction_data] is built, so ["pages"] is the
    number of pages. *)
Definition extract_pdf_body (file : UploadFile) : Task dict :=
  if negb (endswith (py_lower (filename file)) ".pdf") then
    fail (str_http_exception L 400 "File must be a PDF")
  else
    and_then (create (temp_path file)) (fun _ =>
    and_then (answer_of (read file)) (fun content =>
    and_then (answer_of (write L (temp_path file) content)) (fun _ =>
    and_then (answer_of (pdfplumber_pages L content)) (fun pages =>
    and_then (answer_of (page_texts pages EmptyString)) (fun extracted_text =>
    let extracted_text := enhanced content extracted_text in
    and_then (remove (temp_path file)) (fun _ =>
    done [("filename", JStr (filename file));
          ("text_content", JStr extracted_text);
          ("extraction_method", JStr "pdfplumber + llama_parse");
          ("metadata",
           JObj [("file_size", JNum (Z.of_nat (length content)));
                 ("pages", JNum (Z.of_nat (length pages)))])])))))).

(** The response model, as the JSON object it is serialised to. *)
Definition ExtractionResponse (success : bool) (data : json) (error : json)
  : dict :=
  [("success", JBool success); ("data", data); ("error", error)].

(** The POST /extract handler. *)
Definition extract_pdf (file : UploadFile) (d : Disk) : dict * Disk :=
  match extract_pdf_body file d with
  | (Ok data, d') => (ExtractionResponse true (JObj data) JNull, d')
  | (Raise e, d') => (ExtractionResponse false JNull (JStr e), d')
  end.

End Handler.

(** The same libraries with another document reader. *)
Definition with_load_data (f : list Byte.byte -> exn (list string))
    (L : Lib) : Lib :=
  {| open_wb := open_wb L;
     write := write L;
     pdfplumber_pages := pdfplumber_pages L;
     load_data := f;
     unlink := unlink L;
     str_http_exception := str_http_exception L |}.

(** Libraries that read two pages, the second without text, and whose
    document reader fails. *)
Definition demo_lib : Lib :=
  {| open_wb := fun _ => Ok tt;
     write := fun _ _ => Ok tt;
     pdfplumber_pages := fun _ => Ok [Ok (Some "Referral for Jane Smith"); Ok None];
     load_data := fun _ => Raise "No module named 'pypdf'";
     unlink := fun _ => Ok tt;
     str_http_exception := fun code detail => pretty code +:+ ": " +:+ detail |}.

(** Libraries that cannot open the upload as a PDF. *)
Definition broken_lib : Lib :=
  {| open_wb := fun _ => Ok tt;
     write := fun _ _ => Ok tt;
     pdfplumber_pages := fun _ => Raise "No /Root object! - Is this really a PDF?";
     load_data := fun _ => Ok [];
     unlink := fun _ => Ok tt;
     str_http_exception := fun code detail => pretty code +:+ ": " +:+ detail |}.

Definition demo_upload (name : string) : UploadFile :=
  {| filename := name; read := Ok [] |}.

End PdfService.

(** An environment whose extraction service is the PDF service, receiving
    the upload [file] on the disk [d]. *)
Definition pdf_service_http (L : PdfService.Lib) (file : PdfService.UploadFile)
    (d : PdfService.Disk) (t : nat) (rq : request) : exn response :=
  if String.eqb (rq_url rq) (pdf_service_url +:+ "/extract") then
    answer 200 (JObj (fst (PdfService.extract_pdf L file d)))
  else demo_http t rq.

Definition pdf_service_env (L : PdfService.Lib) (file : PdfService.UploadFile)
    (d : PdfService.Disk) : Env :=
  {| http := pdf_service_http L file d;
     llm := demo_llm;
     json_loads := loads_among [draft0; draft1; draft2; draft3];
     fhirclient_parse := fun _ => Ok tt;
     sqlite_insert_ok := fun _ => true;
     py_str := str_of;
     path_exists := fun _ => true;
     path_str := fun p => p;
     open_file := fun _ => Ok tt |}.

(** ** Definitions for the identity object and the failing inputs *)

(** The patient the registry names in answer to the search [generator] sends
    in the world [w]: the [id] of the first entry of a 200 answer whose body
    is a bundle with entries; [None] when the registry cannot be reached,
    answers with another status, or names no patient that way. *)
Definition registry_patient (E : Env) (w : World) : option json :=
  match http E (tick w) (search_request "Patient") with
  | Ok resp =>
      if status_code resp =? 200 then
        match body_json resp with
        | Ok data =>
            match first_entry_id data with
            | Ok found => found
            | Raise _ => None
            end
        | Raise _ => None
        end
      else None
  | Raise _ => None
  end.

(** [state["pdf_data"]["data"]["text_content"]], the first line of
    [generator]. *)
Definition pdf_content_of (state : AgentState) : exn json :=
  exn_bind (getitem_key (pdf_data state) "data") (fun data =>
  getitem_key data "text_content").

(** A registry in which no patient is loaded: the patient search is
    answered 200 with an empty bundle; everything else is as in
    [demo_http]. *)
Definition empty_registry_http (t : nat) (rq : request) : exn response :=
  if String.eqb (rq_url rq) (fhir_base_url +:+ "/Patient?_count=1") then
    answer 200 (JObj [("resourceType", JStr "Bundle");
                      ("type", JStr "searchset"); ("total", JNum 0)])
  else demo_http t rq.

Definition empty_registry_env : Env :=
  {| http := empty_registry_http;
     llm := demo_llm;
     json_loads := loads_among [draft0; draft1; draft2; draft3];
     fhirclient_parse := fun _ => Ok tt;
     sqlite_insert_ok := fun _ => true;
     py_str := str_of;
     path_exists := fun _ => true;
     path_str := fun p => p;
     open_file := fun _ => Ok tt |}.

(** An EMPI that answers 200 with a JSON body that is not an object (here
    an empty list); everything else is as in [demo_http]. *)
Definition garbled_empi_http (t : nat) (rq : request) : exn response :=
  if String.eqb (rq_url rq) (empi_service_url +:+ "/patient") then
    answer 200 (JList [])
  else demo_http t rq.

Definition garbled_empi_env : Env :=
  {| http := garbled_empi_http;
     llm := demo_llm;
     json_loads := loads_among [draft0; draft1; draft2; draft3];
     fhirclient_parse := fun _ => Ok tt;
     sqlite_insert_ok := fun _ => true;
     py_str := str_of;
     path_exists := fun _ => true;
     path_str := fun p => p;
     open_file := fun _ => Ok tt |}.

(** The world in which [process_referral] is called: nothing allocated,
    nothing logged, nothing sent. *)
Definition fresh_world : World :=
  {| tick := 0; heap := []; audit_log := []; sent := [] |}.

(** ** Reasoning about computations in [M] *)

(** Case analysis on a scrutinee of the goal that has no [match] inside. *)
Ltac break_match :=
  match goal with
  | |- context [match ?x with _ => _ end] =>
      lazymatch x with
      | context [match _ with _ => _ end] => fail
      | _ => destruct x eqn:?
      end
  end.

Ltac unfold_m :=
  unfold try_catch, bind, ret, raise, lift in *.

Section Monad.

Context {X : Type} (f : World -> X).

Lemma keeps_ret {A} (a : A) : keeps f (ret a).
Proof. intros w. reflexivity. Qed.

Lemma keeps_lift {A} (x : exn A) : keeps f (lift x).
Proof. intros w. reflexivity. Qed.

Lemma keeps_raise {A} (e : string) : keeps f (@raise A e).
Proof. intros w. reflexivity. Qed.

Lemma keeps_bind {A B} (m : M A) (k : A -> M B) :
  keeps f m -> (forall a, keeps f (k a)) -> keeps f (bind m k).
Proof.
  intros Hm Hk w. unfold bind. specialize (Hm w).
  destruct (m w) as [[a|e] w1]; simpl in *; [|assumption].
  rewrite Hk. assumption.
Qed.

Lemma keeps_try_catch {A} (m : M A) (h : string -> M A) :
  keeps f m -> (forall e, keeps f (h e)) -> keeps f (try_catch m h).
Proof.
  intros Hm Hh w. unfold try_catch. specialize (Hm w).
  destruct (m w) as [[a|e] w1]; simpl in *; [assumption|].
  rewrite Hh. assumption.
Qed.

Lemma keeps_run {A} (m : M A) w r w' :
  keeps f m -> m w = (r, w') -> f w' = f w.
Proof. intros Hm Hrun. specialize (Hm w). rewrite Hrun in Hm. exact Hm. Qed.

End Monad.

Lemma bind_inv {A B} (m : M A) (k : A -> M B) w r w' :
  bind m k w = (r, w') ->
  (exists a w1, m w = (Ok a, w1) /\ k a w1 = (r, w')) \/
  (exists e, m w = (Raise e, w') /\ r = Raise e).
Proof.
  unfold bind. destruct (m w) as [[a|e] w1]; intros H.
  - left. eauto.
  - right. injection H as <- <-. eauto.
Qed.


Lemma total_try_catch {A} (m : M A) (h : string -> M A) :
  (forall e, total (h e)) -> total (try_catch m h).
Proof.
  intros Hh w. unfold try_catch.
  destruct (m w) as [[a|e] w1]; [eauto|apply Hh].
Qed.

(** Leaves of a [keeps] goal: a primitive that rebuilds the world with the
    component untouched. *)
Ltac keeps_leaf :=
  let w := fresh "w" in
  intros w; try reflexivity;
  repeat (break_match; try reflexivity).

Ltac keeps_step :=
  first
    [ apply keeps_ret | apply keeps_lift | apply keeps_raise
    | apply keeps_bind; [|intros ?]
    | apply keeps_try_catch; [|intros ?]
    | match goal with
      | |- keeps _ (if ?b then _ else _) => destruct b
      | |- keeps _ (match ?x with _ => _ end) => destruct x
      end ].

Section ToolsFacts.

Context (E : Env).

Lemma log_operation_result op i o s e r w :
  log_operation E op i o s e r w =
  (Ok tt,
   {| tick := S (tick w); heap := heap w;
      audit_log :=
        if sqlite_insert_ok E (tick w)
        then audit_log w ++
             [{| a_operation := op; a_input_data := dumps_if i;
                 a_output_data := dumps_if o; a_success := s;
                 a_error_message := e; a_retry_count := r |}]
        else audit_log w;
      sent := sent w |}).
Proof. reflexivity. Qed.

(** The local checks of [validate_fhir] touch nothing outside and never
    raise: either they pass, on what can only be a non-empty dict, or they
    return an invalid outcome with one error. *)
Lemma validate_local_pure j w :
  exists early,
    validate_local E j w = (Ok early, w) /\
    ((early = None /\ truthy j = true) \/
     exists e, early = Some (validation false [JStr e])).
Proof.
  unfold validate_local. unfold_m.
  destruct (py_get j "resourceType" JNull) as [rt|e] eqn:Hget; [|eauto 6].
  destruct (py_eq_str rt "ServiceRequest") eqn:Hrt; [|eauto 6].
  destruct (fhirclient_parse E j); [|eauto 6].
  eexists; split; [reflexivity|left; split; [reflexivity|]].
  destruct j as [| | | | |d]; simpl in Hget; try discriminate.
  destruct d as [|kv d]; [|reflexivity].
  injection Hget as <-. simpl in Hrt. discriminate.
Qed.

(** [validate_fhir] always returns an outcome.  It sends at most one
    request, writes no audit row and updates no object; an outcome is either
    valid with no errors, for a non-empty resource, or invalid with at least
    one error. *)
Lemma validate_fhir_outcome url j w :
  exists r w',
    validate_fhir E url j w = (Ok r, w') /\
    heap w' = heap w /\ audit_log w' = audit_log w /\
    ((sent w' = sent w /\ tick w' = tick w) \/
     (sent w' = sent w ++ [validate_request url j] /\ tick w' = S (tick w))) /\
    ((r = validation true [] /\ truthy j = true) \/
     exists errs, r = validation false errs /\ truthy (JList errs) = true).
Proof.
  unfold validate_fhir.
  destruct (validate_local_pure j w) as (early & Hloc & Hearly).
  unfold try_catch at 1. unfold bind at 1. rewrite Hloc.
  destruct Hearly as [[-> Hj]|[e ->]].
  - unfold_m. unfold http_send, validate_request. simpl.
    repeat break_match; simpl;
      eexists _, _; (split; [reflexivity|]); simpl;
      repeat split; eauto.
  - unfold_m. eexists _, _; split; [reflexivity|]. repeat split; eauto.
Qed.

End ToolsFacts.

Ltac minv :=
  repeat match goal with
  | H : bind _ _ _ = (_, _) |- _ =>
      apply bind_inv in H;
      destruct H as [(? & ? & ? & H)|(? & H & ->)]
  | H : ret _ _ = (_, _) |- _ => unfold ret in H; inversion H; subst; clear H
  | H : lift _ _ = (_, _) |- _ => unfold lift in H; inversion H; subst; clear H
  | H : raise _ _ = (_, _) |- _ =>
      unfold raise in H; inversion H; subst; clear H
  | H : (if ?b then _ else _) _ = (_, _) |- _ => destruct b eqn:?
  end.

Section GraphFacts.

Context (E : Env).

Lemma post_fhir_outcome url j w :
  exists r w',
    post_fhir E url j w = (Ok r, w') /\
    truthy (JObj r) = true /\
    heap w' = heap w /\ audit_log w' = audit_log w.
Proof.
  unfold post_fhir, http_send. unfold_m. simpl.
  repeat break_match; eexists _, _; (split; [reflexivity|]); auto.
Qed.

Lemma parse_llm_json_world raw w : snd (parse_llm_json E raw w) = w.
Proof.
  unfold parse_llm_json. unfold_m. repeat break_match; reflexivity.
Qed.

Lemma keeps_parse_llm_json {X} (f : World -> X) raw :
  keeps f (parse_llm_json E raw).
Proof. intros w. rewrite parse_llm_json_world. reflexivity. Qed.

Lemma keeps_audit_search_one kind : keeps audit_log (search_one E kind).
Proof. unfold search_one. repeat keeps_step; keeps_leaf. Qed.

Lemma keeps_heap_search_one kind : keeps heap (search_one E kind).
Proof. unfold search_one. repeat keeps_step; keeps_leaf. Qed.

Lemma keeps_audit_heap_setitem l k v : keeps audit_log (heap_setitem l k v).
Proof. unfold heap_setitem. keeps_leaf. Qed.

Lemma keeps_audit_get_real_patient_id l :
  keeps audit_log (get_real_patient_id E l).
Proof.
  unfold get_real_patient_id.
  apply keeps_try_catch; [|intros; apply keeps_ret].
  apply keeps_bind; [apply keeps_audit_search_one|].
  intros [id|]; [|apply keeps_ret].
  repeat keeps_step; apply keeps_audit_heap_setitem.
Qed.

Lemma keeps_audit_get_real_practitioner_id :
  keeps audit_log (get_real_practitioner_id E).
Proof.
  unfold get_real_practitioner_id.
  apply keeps_try_catch; [|intros; apply keeps_ret].
  apply keeps_bind; [apply keeps_audit_search_one|].
  intros [id|]; apply keeps_ret.
Qed.

Lemma keeps_heap_get_real_practitioner_id :
  keeps heap (get_real_practitioner_id E).
Proof.
  unfold get_real_practitioner_id.
  apply keeps_try_catch; [|intros; apply keeps_ret].
  apply keeps_bind; [apply keeps_heap_search_one|].
  intros [id|]; apply keeps_ret.
Qed.

Lemma keeps_audit_llm_call p : keeps audit_log (llm_call E p).
Proof. keeps_leaf. Qed.

Lemma keeps_heap_llm_call p : keeps heap (llm_call E p).
Proof. keeps_leaf. Qed.

Lemma keeps_heap_log_operation op i o s e r :
  keeps heap (log_operation E op i o s e r).
Proof. keeps_leaf. Qed.

Lemma log_operation_one_log op i o s e r w0 w r' w' :
  audit_log w = audit_log w0 ->
  log_operation E op i o s e r w = (r', w') ->
  r' = Ok tt /\ one_log E w0 w'.
Proof.
  intros Hw H. rewrite log_operation_result in H. inversion H; subst; clear H.
  split; [reflexivity|]. eexists _, _. simpl. rewrite Hw. reflexivity.
Qed.

Ltac logged :=
  match goal with
  | H : log_operation _ _ _ _ _ _ _ _ = (Raise _, _) |- _ =>
      rewrite log_operation_result in H; discriminate
  | H : log_operation _ _ _ _ _ _ _ _ = (Ok _, _) |- _ =>
      eapply log_operation_one_log in H; [apply H|congruence]
  end.

(** The [try] block of [generator]: it returns the state with a new draft
    after one call of [log_operation], or raises before any. *)
Lemma generator_body_effect s w r w' :
  generator_body E s w = (r, w') ->
  match r with
  | Ok s' => (exists d, s' = with_draft_json d s) /\ one_log E w w'
  | Raise _ => audit_log w' = audit_log w
  end.
Proof.
  unfold generator_body. intros H. minv.
  all: repeat match goal with
    | H : get_real_patient_id _ _ _ = _ |- _ =>
        apply (keeps_run audit_log) in H;
        [|apply keeps_audit_get_real_patient_id]
    | H : get_real_practitioner_id _ _ = _ |- _ =>
        apply (keeps_run audit_log) in H;
        [|apply keeps_audit_get_real_practitioner_id]
    | H : llm_call _ _ _ = _ |- _ =>
        apply (keeps_run audit_log) in H; [|apply keeps_audit_llm_call]
    | H : parse_llm_json _ _ _ = _ |- _ =>
        apply (keeps_run audit_log) in H; [|apply keeps_parse_llm_json]
    | H : heap_read _ _ = _ |- _ =>
        unfold heap_read in H; inversion H; subst; clear H
    end.
  all: try congruence.
  - split; [eauto|]. logged.
  - logged.
Qed.

Lemma generator_effect s w :
  exists s' w',
    generator E s w = (Ok s', w') /\
    ((exists d, s' = with_draft_json d s) \/
     (exists e, s' = with_error_message e s)) /\
    one_log E w w'.
Proof.
  unfold generator, try_catch.
  destruct (generator_body E s w) as [[s1|e] w1] eqn:Hb;
    apply generator_body_effect in Hb.
  - destruct Hb as [Hd Hlog]. eauto 6.
  - unfold generator_handler, bind, ret. rewrite log_operation_result.
    eexists _, _. split; [reflexivity|]. split; [eauto|].
    eexists _, _. simpl. rewrite Hb. reflexivity.
Qed.

Lemma validator_body_effect s w :
  exists r w',
    validator_body E s w = (Ok (validated r s), w') /\
    ((r = validation true [] /\ truthy (draft_json s) = true) \/
     exists errs, r = validation false errs /\ truthy (JList errs) = true) /\
    one_log E w w' /\ heap w' = heap w.
Proof.
  unfold validator_body, bind.
  destruct (validate_fhir_outcome E fhir_base_url (draft_json s) w)
    as (r & w1 & -> & Hheap & Haudit & _ & Hr).
  rewrite log_operation_result. unfold validated.
  exists r. eexists. split; [destruct (truthy (is_valid r)); reflexivity|].
  split; [assumption|]. split; [|assumption].
  eexists _, _. simpl. rewrite Haudit. reflexivity.
Qed.

Lemma validator_effect s w :
  exists r w',
    validator E s w = (Ok (validated r s), w') /\
    ((r = validation true [] /\ truthy (draft_json s) = true) \/
     exists errs, r = validation false errs /\ truthy (JList errs) = true) /\
    one_log E w w' /\ heap w' = heap w.
Proof.
  destruct (validator_body_effect s w) as (r & w' & Hb & H).
  exists r, w'. split; [|assumption].
  unfold validator, try_catch. rewrite Hb. reflexivity.
Qed.

Lemma fixer_body_effect s w r w' :
  truthy (outcome_errors s) = true ->
  fixer_body E s w = (r, w') ->
  heap w' = heap w /\
  match r with
  | Ok s' =>
      (exists d, s' = with_retry_count (retry_count s + 1)
                        (with_draft_json d s)) /\ one_log E w w'
  | Raise _ => audit_log w' = audit_log w
  end.
Proof.
  unfold fixer_body, outcome_errors. intros -> H. simpl in H. minv.
  all: repeat match goal with
    | H : llm_call _ _ _ = _ |- _ =>
        pose proof (keeps_run heap _ _ _ _ (keeps_heap_llm_call _) H);
        apply (keeps_run audit_log) in H; [|apply keeps_audit_llm_call]
    | H : parse_llm_json _ _ _ = _ |- _ =>
        pose proof (keeps_run heap _ _ _ _ (keeps_parse_llm_json heap _) H);
        apply (keeps_run audit_log) in H; [|apply keeps_parse_llm_json]
    end.
  all: try match goal with
    | H : log_operation _ _ _ _ _ _ _ _ = _ |- _ =>
        pose proof (keeps_run heap _ _ _ _
                      (keeps_heap_log_operation _ _ _ _ _ _) H)
    end.
  all: try (split; congruence).
  - split; [congruence|]. split; [eauto|]. logged.
  - logged.
Qed.

Lemma fixer_noop s w :
  truthy (outcome_errors s) = false ->
  fixer E s w = (Ok (with_final_json (draft_json s) s), w).
Proof.
  unfold fixer, try_catch, fixer_body, outcome_errors. intros ->. reflexivity.
Qed.

Lemma fixer_effect s w :
  truthy (outcome_errors s) = true ->
  exists s' w',
    fixer E s w = (Ok s', w') /\
    ((exists d, s' = with_retry_count (retry_count s + 1)
                       (with_draft_json d s) /\
                fst (fixer_body E s w) = Ok s') \/
     (exists e, s' = with_error_message e s /\
                fst (fixer_body E s w) = Raise e)) /\
    one_log E w w' /\ heap w' = heap w.
Proof.
  intros Herr. unfold fixer, try_catch.
  destruct (fixer_body E s w) as [[s1|e] w1] eqn:Hb;
    apply fixer_body_effect in Hb; try assumption.
  - destruct Hb as (Hheap & (d & ->) & Hlog). eauto 10.
  - destruct Hb as (Hheap & Haudit).
    unfold fixer_handler, bind, ret. rewrite log_operation_result.
    eexists _, _. split; [reflexivity|]. split; [eauto|]. simpl.
    split; [|assumption].
    eexists _, _. simpl. rewrite Haudit. reflexivity.
Qed.

Lemma poster_body_effect s w :
  exists r w',
    poster_body E s w = (Ok (with_posting_result r s), w') /\
    truthy (JObj r) = true /\ one_log E w w' /\ heap w' = heap w.
Proof.
  unfold poster_body, bind.
  destruct (post_fhir_outcome fhir_base_url (final_json s) w)
    as (r & w1 & -> & Hr & Hheap & Haudit).
  rewrite log_operation_result. exists r. eexists.
  split; [reflexivity|]. split; [assumption|]. split; [|assumption].
  eexists _, _. simpl. rewrite Haudit. reflexivity.
Qed.

Lemma poster_effect s w :
  exists r w',
    poster E s w = (Ok (with_posting_result r s), w') /\
    truthy (JObj r) = true /\ one_log E w w' /\ heap w' = heap w.
Proof.
  destruct (poster_body_effect s w) as (r & w' & Hb & H).
  exists r, w'. split; [|assumption].
  unfold poster, try_catch. rewrite Hb. reflexivity.
Qed.

Lemma logger_body_effect s w :
  exists w', logger_body E s w = (Ok s, w') /\ one_log E w w' /\ heap w' = heap w.
Proof.
  unfold logger_body, bind, heap_read, ret. rewrite log_operation_result.
  eexists. split; [reflexivity|]. split; [|reflexivity].
  eexists _, _. reflexivity.
Qed.

Lemma logger_effect s w :
  exists w', logger_node E s w = (Ok s, w') /\ one_log E w w' /\ heap w' = heap w.
Proof.
  destruct (logger_body_effect s w) as (w' & Hb & H).
  exists w'. split; [|assumption].
  unfold logger_node, try_catch. rewrite Hb. reflexivity.
Qed.

(** *** The in-place update of [empi_data] *)




End GraphFacts.

(** ** Runs of the graph *)

Section RunFacts.

Context (E : Env).

Lemma one_log_rows w w' :
  one_log E w w' ->
  (length (audit_log w) <= length (audit_log w') <= length (audit_log w) + 1)%nat.
Proof.
  intros (t & row & ->). destruct (sqlite_insert_ok E t).
  - rewrite length_app. simpl. lia.
  - lia.
Qed.

(** Every node returns a state, of the shape [node_result] says, after at
    most one new audit row. *)
Lemma run_node_effect n s w :
  exists s' w',
    run_node E n s w = (Ok s', w') /\
    node_result E n s w s' w' /\
    (length (audit_log w) <= length (audit_log w') <= length (audit_log w) + 1)%nat.
Proof.
  destruct n; simpl.
  - destruct (generator_effect E s w) as (s' & w' & H & Hs & Hlog).
    exists s', w'. auto using one_log_rows.
  - destruct (validator_effect E s w) as (r & w' & H & Hr & Hlog & _).
    exists (validated r s), w'. split; [assumption|].
    split; [eauto|]. auto using one_log_rows.
  - destruct (truthy (outcome_errors s)) eqn:Herr.
    + destruct (fixer_effect E s w Herr) as (s' & w' & H & Hs & Hlog & _).
      exists s', w'. split; [assumption|]. split; [right; auto|].
      auto using one_log_rows.
    + exists (with_final_json (draft_json s) s), w.
      split; [apply fixer_noop; assumption|]. split; [left; auto|]. lia.
  - destruct (poster_effect E s w) as (r & w' & H & Hr & Hlog & _).
    exists (with_posting_result r s), w'. split; [assumption|].
    split; [eauto|]. auto using one_log_rows.
  - destruct (logger_effect E s w) as (w' & H & Hlog & _).
    exists s, w'. auto using one_log_rows.
Qed.

Lemma run_node_result n s w s' w' :
  run_node E n s w = (Ok s', w') -> node_result E n s w s' w'.
Proof.
  intros H. destruct (run_node_effect n s w) as (s1 & w1 & H1 & Hr & _).
  rewrite H1 in H. injection H as <- <-. assumption.
Qed.

(** An invariant of the steps of a run: it holds at every step once it holds
    at the first one and every node hands it on to its successor; what the
    last node establishes holds of the result. *)
Lemma run_from_invariant (Inv : config -> Prop)
    (Fin : AgentState -> World -> Prop) :
  (forall n s w s' w',
     Inv {| c_node := n; c_state := s; c_world := w |} ->
     run_node E n s w = (Ok s', w') ->
     match next_node n s' with
     | Some n' => Inv {| c_node := n'; c_state := s'; c_world := w' |}
     | None => Fin s' w'
     end) ->
  forall limit n s w,
    Inv {| c_node := n; c_state := s; c_world := w |} ->
    Forall Inv (fst (run_from E limit n s w)) /\
    (forall s' w', snd (run_from E limit n s w) = (Ok s', w') -> Fin s' w').
Proof.
  intros Hstep. induction limit as [|limit IH]; intros n s w Hinv; simpl.
  - split; [constructor|discriminate].
  - destruct (run_node_effect n s w) as (s1 & w1 & Hrun & _).
    rewrite Hrun. specialize (Hstep n s w s1 w1 Hinv Hrun).
    destruct (next_node n s1) as [n'|].
    + specialize (IH n' s1 w1 Hstep).
      destruct (run_from E limit n' s1 w1) as [steps r]. simpl in *.
      destruct IH as [IHsteps IHfin]. split; [constructor; assumption|].
      assumption.
    + simpl. split; [repeat constructor; assumption|].
      intros s' w' H. injection H as <- <-. assumption.
Qed.



End RunFacts.

(** ** The routing decision after validation *)

(** C2. [should_retry] is the specification's [decideAfterValidate] with
    ceiling 3: post when the recorded outcome is valid, else fix when
    [retry_count] is below 3, else end.  Validity is looked at first: a valid
    state whose [retry_count] is at the ceiling is still posted. *)
Theorem should_retry_decides (state : AgentState) :
  decision_of_route (should_retry state) =
  decideAfterValidate (outcome_valid state) (retry_count state) 3 /\
  should_retry
    (with_retry_count max_retries
       (with_validation_result (validation true []) state)) = r_post.
Proof.
  split; [|reflexivity].
  unfold should_retry, decideAfterValidate, outcome_valid, is_valid, max_retries.
  destruct (truthy _); [reflexivity|].
  destruct (retry_count state <? 3); reflexivity.
Qed.

(** ** The validation gateway *)

(** C9. A resource whose [resourceType] is not ServiceRequest is reported
    invalid with the single error "Only ServiceRequest resources supported",
    and nothing is sent: the world is left as it was. *)
Theorem other_resource_types_rejected_locally
    (E : Env) (base_url : string) (d : dict) (w : World) :
  py_eq_str (dict_get_default d "resourceType" JNull) "ServiceRequest" = false ->
  validate_fhir E base_url (JObj d) w =
  (Ok (validation false [JStr "Only ServiceRequest resources supported"]), w).
Proof.
  intros Hrt. unfold validate_fhir, validate_local. unfold_m. simpl.
  rewrite Hrt. reflexivity.
Qed.

Lemma other_resource_types_rejected_locally_witness :
  validate_fhir demo_env fhir_base_url
    (JObj [("resourceType", JStr "Patient"); ("id", JStr "p1")]) world0 =
  (Ok (validation false [JStr "Only ServiceRequest resources supported"]),
   world0).
Proof.
  apply (other_resource_types_rejected_locally demo_env fhir_base_url
           [("resourceType", JStr "Patient"); ("id", JStr "p1")] world0).
  reflexivity.
Defined.

(** C7. [validate_fhir] returns an outcome for every resource and never
    raises; it sends at most one request.  When the local checks pass and the
    endpoint answers with a status outside 200..299, the outcome is invalid
    with exactly one error, the text "HTTP <status>: <body>", after exactly
    one request. *)
Theorem validate_never_raises_and_reports_transport_failure
    (E : Env) (base_url : string) (resource_json : json) (w : World) :
  (exists r, fst (validate_fhir E base_url resource_json w) = Ok r) /\
  (length (sent (snd (validate_fhir E base_url resource_json w)))
   <= length (sent w) + 1)%nat /\
  (forall resp,
     fst (validate_local E resource_json w) = Ok None ->
     http E (tick w) (validate_request base_url resource_json) = Ok resp ->
     ~ (200 <= status_code resp < 300) ->
     fst (validate_fhir E base_url resource_json w) =
       Ok (validation false
             [JStr ("HTTP " +:+ pretty (status_code resp) +:+ ": "
                    +:+ text resp)]) /\
     sent (snd (validate_fhir E base_url resource_json w)) =
       sent w ++ [validate_request base_url resource_json]).
Proof.
  destruct (validate_fhir_outcome E base_url resource_json w)
    as (r & w' & Hrun & _ & _ & Hsent & _).
  split; [rewrite Hrun; eauto|]. split.
  - rewrite Hrun. simpl.
    destruct Hsent as [[-> _]|[-> _]]; [lia|rewrite length_app; simpl; lia].
  - intros resp Hloc Hhttp Hstatus. clear Hrun Hsent.
    destruct (validate_local_pure E resource_json w) as (early & Hl & _).
    rewrite Hl in Hloc. simpl in Hloc. injection Hloc as ->.
    assert (H200 : (status_code resp =? 200) = false) by lia.
    assert (Hrun : validate_fhir E base_url resource_json w =
      (Ok (validation false
             [JStr ("HTTP " +:+ pretty (status_code resp) +:+ ": "
                    +:+ text resp)]),
       {| tick := S (tick w); heap := heap w; audit_log := audit_log w;
          sent := sent w ++ [validate_request base_url resource_json] |})).
    { unfold validate_fhir, try_catch, bind. rewrite Hl.
      unfold http_send. fold (validate_request base_url resource_json).
      rewrite Hhttp, H200. reflexivity. }
    rewrite Hrun. split; reflexivity.
Qed.

Lemma validate_never_raises_and_reports_transport_failure_witness :
  fst (validate_fhir demo_env "http://localhost:8081/fhir" draft0 world0) =
    Ok (validation false [JStr "HTTP 404: Patient not found"]) /\
  sent (snd (validate_fhir demo_env "http://localhost:8081/fhir" draft0
               world0)) =
    [validate_request "http://localhost:8081/fhir" draft0].
Proof.
  destruct (validate_never_raises_and_reports_transport_failure
              demo_env "http://localhost:8081/fhir" draft0 world0)
    as (_ & _ & H).
  apply (H {| status_code := 404; text := "Patient not found";
              body_json := Raise "Expecting value: line 1 column 1 (char 0)" |}).
  - reflexivity.
  - reflexivity.
  - simpl. lia.
Defined.

(** ** The repair step on an empty error list *)

(** C5, as the code has it.  When the recorded outcome has no errors,
    [fixer] calls nothing and logs nothing; it returns the state with
    [final_json] set to the draft, and every other field, the draft and
    [retry_count] among them, as it was. *)
Theorem fixer_without_errors_sets_final (E : Env) (state : AgentState)
    (w : World) :
  truthy (outcome_errors state) = false ->
  fixer E state w = (Ok (with_final_json (draft_json state) state), w).
Proof. apply fixer_noop. Qed.

Lemma fixer_without_errors_sets_final_witness :
  fixer offline_env unexplained world0 =
  (Ok (with_final_json draft0 unexplained), world0).
Proof.
  apply (fixer_without_errors_sets_final offline_env unexplained world0).
  reflexivity.
Defined.

(** C5 as stated fails: on an empty error list [fixer] does not return the
    state it was given, it fills in [final_json]. *)
Lemma fixer_without_errors_not_noop :
  truthy (outcome_errors unexplained) = false /\
  fst (fixer offline_env unexplained world0) <> Ok unexplained /\
  (exists s', fst (fixer offline_env unexplained world0) = Ok s' /\
              final_json unexplained = JObj [] /\ final_json s' = draft0).
Proof.
  split; [reflexivity|]. split; [discriminate|].
  eexists. split; [reflexivity|]. split; reflexivity.
Qed.

(** ** Invariants of a run *)

Section Invariants.

Context (E : Env).

Lemma retry_count_validated r s : retry_count (validated r s) = retry_count s.
Proof. unfold validated. destruct (truthy (is_valid r)); reflexivity. Qed.

Lemma within_ceiling_step n s w s' w' :
  within_ceiling {| c_node := n; c_state := s; c_world := w |} ->
  run_node E n s w = (Ok s', w') ->
  match next_node n s' with
  | Some n' => within_ceiling {| c_node := n'; c_state := s'; c_world := w' |}
  | None => retry_count s' <= max_retries
  end.
Proof.
  unfold within_ceiling. simpl. intros [Hle Hlt] Hrun.
  apply run_node_result in Hrun. destruct n; simpl in *.
  - destruct Hrun as [[d ->]|[e ->]]; simpl; split; auto; discriminate.
  - destruct Hrun as (r & -> & _). rewrite retry_count_validated.
    destruct (should_retry (validated r s)) eqn:Hroute;
      (split; [assumption|]); try discriminate.
    intros _. unfold should_retry in Hroute.
    rewrite retry_count_validated in Hroute.
    destruct (truthy _); [discriminate|].
    destruct (retry_count s <? max_retries) eqn:Hlt'; [lia|discriminate].
  - specialize (Hlt eq_refl).
    destruct Hrun as [(_ & -> & _)|(_ & [(d & -> & _)|(e & -> & _)])];
      simpl; (split; [lia|discriminate]).
  - destruct Hrun as (r & -> & _). simpl.
    destruct (should_continue _); simpl; [split; [assumption|discriminate]|].
    assumption.
  - subst. assumption.
Qed.

Lemma outcome_recorded_step n s w s' w' :
  outcome_recorded {| c_node := n; c_state := s; c_world := w |} ->
  run_node E n s w = (Ok s', w') ->
  match next_node n s' with
  | Some n' => outcome_recorded {| c_node := n'; c_state := s'; c_world := w' |}
  | None => final_matches_outcome s'
  end.
Proof.
  unfold outcome_recorded, final_matches_outcome, outcome_valid. simpl.
  intros (Hm & Hempty & Herr) Hrun.
  apply run_node_result in Hrun. destruct n; simpl in *.
  - assert (Hf : truthy (final_json s) = false) by (apply Hempty; discriminate).
    destruct Hrun as [[d ->]|[e ->]]; simpl;
      (split; [assumption|]); (split; [auto|discriminate]).
  - assert (Hf : truthy (final_json s) = false) by (apply Hempty; discriminate).
    destruct Hrun as (r & -> & [[-> Hdraft]|(errs & -> & Herrs)]).
    + unfold validated, should_retry. simpl.
      split; [assumption|]. split; [intros H; contradiction H; reflexivity|].
      discriminate.
    + unfold validated, should_retry. simpl.
      destruct (retry_count s <? max_retries); simpl;
        (split; [assumption|]); split; auto; try discriminate.
  - specialize (Herr eq_refl).
    assert (Hf : truthy (final_json s) = false) by (apply Hempty; discriminate).
    destruct Hrun as [(Hno & _)|(_ & [(d & -> & _)|(e & -> & _)])];
      [congruence| |]; simpl;
      (split; [assumption|]); (split; [auto|discriminate]).
  - destruct Hrun as (r & -> & _). simpl.
    destruct (should_continue _); simpl; [|assumption].
    split; [assumption|].
    split; [intros _ H; contradiction H; reflexivity|discriminate].
  - subst. assumption.
Qed.

Lemma budget_step n s w s' w' n' :
  outcome_recorded {| c_node := n; c_state := s; c_world := w |} ->
  within_ceiling {| c_node := n; c_state := s; c_world := w |} ->
  repair_succeeds E {| c_node := n; c_state := s; c_world := w |} ->
  run_node E n s w = (Ok s', w') ->
  next_node n s' = Some n' ->
  1 + budget n' (retry_count s') <= budget n (retry_count s).
Proof.
  unfold outcome_recorded, within_ceiling, repair_succeeds, step_raises.
  simpl. intros (_ & _ & Herr) (Hle & Hlt) Hok Hrun Hnext.
  apply run_node_result in Hrun.
  destruct n; simpl in *.
  - injection Hnext as <-.
    destruct Hrun as [[d ->]|[e ->]]; simpl; lia.
  - destruct Hrun as (r & -> & _). rewrite retry_count_validated.
    destruct (should_retry _); injection Hnext as <-; simpl;
      unfold max_retries in *; lia.
  - injection Hnext as <-. specialize (Herr eq_refl).
    specialize (Hok eq_refl). specialize (Hlt eq_refl).
    destruct Hrun as [(Hno & _)|(_ & [(d & -> & _)|(e & _ & Hraise)])].
    + congruence.
    + simpl. lia.
    + destruct (fixer_body E s w) as [[s1|e1] w1]; simpl in *; discriminate.
  - destruct Hrun as (r & -> & _).
    destruct (should_continue _); [|discriminate].
    injection Hnext as <-. simpl. lia.
  - discriminate.
Qed.

Lemma budget_positive n s w :
  within_ceiling {| c_node := n; c_state := s; c_world := w |} ->
  1 <= budget n (retry_count s).
Proof.
  unfold within_ceiling, max_retries. simpl. intros [Hle Hlt].
  destruct n; simpl; unfold max_retries; lia.
Qed.

(** A run in which no repair raises takes no more steps than its budget. *)
Lemma steps_within_budget limit n s w :
  outcome_recorded {| c_node := n; c_state := s; c_world := w |} ->
  within_ceiling {| c_node := n; c_state := s; c_world := w |} ->
  Forall (repair_succeeds E) (fst (run_from E limit n s w)) ->
  Z.of_nat (length (fst (run_from E limit n s w))) <= budget n (retry_count s).
Proof.
  revert n s w. induction limit as [|limit IH]; intros n s w Hrec Hceil.
  - intros _. simpl. pose proof (budget_positive n s w Hceil). lia.
  - simpl.
    destruct (run_node_effect E n s w) as (s1 & w1 & Hrun & _).
    rewrite Hrun.
    pose proof (outcome_recorded_step n s w s1 w1 Hrec Hrun) as Hrec'.
    pose proof (within_ceiling_step n s w s1 w1 Hceil Hrun) as Hceil'.
    destruct (next_node n s1) as [n'|] eqn:Hnext.
    + specialize (IH n' s1 w1 Hrec' Hceil').
      destruct (run_from E limit n' s1 w1) as [steps r]. simpl in *.
      intros Hall. apply Forall_cons in Hall. destruct Hall as [Hhere Hrest].
      specialize (IH Hrest).
      pose proof (budget_step n s w s1 w1 n' Hrec Hceil Hhere Hrun Hnext).
      lia.
    + intros _. simpl. pose proof (budget_positive n s w Hceil). lia.
Qed.

End Invariants.

(** C3. In a run that starts with [retry_count] within the ceiling (it
    starts at 0), [retry_count] is below 3 at every step at which [fixer]
    executes, and it is at most 3 at every step and in the final state. *)
Theorem fixer_runs_below_ceiling (E : Env) (limit : nat)
    (initial : AgentState) (w : World) :
  retry_count initial <= max_retries ->
  Forall
    (fun c =>
       (c_node c = Fixer -> retry_count (c_state c) < max_retries) /\
       retry_count (c_state c) <= max_retries)
    (fst (ainvoke E limit initial w)) /\
  (forall s' w',
     snd (ainvoke E limit initial w) = (Ok s', w') ->
     retry_count s' <= max_retries).
Proof.
  intros Hle.
  destruct (run_from_invariant E within_ceiling
              (fun s' _ => retry_count s' <= max_retries)
              (within_ceiling_step E) limit Generator initial w)
    as [Hsteps Hfin].
  - split; [assumption|discriminate].
  - split; [|exact Hfin].
    eapply Forall_impl; [exact Hsteps|].
    intros c [H1 H2]. split; assumption.
Qed.

Lemma fixer_runs_below_ceiling_witness :
  Forall
    (fun c =>
       (c_node c = Fixer -> retry_count (c_state c) < max_retries) /\
       retry_count (c_state c) <= max_retries)
    (fst (ainvoke demo_env default_recursion_limit state0 world0)) /\
  (forall s' w',
     snd (ainvoke demo_env default_recursion_limit state0 world0) = (Ok s', w') ->
     retry_count s' <= max_retries).
Proof.
  apply (fixer_runs_below_ceiling demo_env default_recursion_limit state0
           world0).
  vm_compute. discriminate.
Defined.

(** C4. At every step of a run started by [process_referral], and in the
    state the run returns, [final_json] is non-empty exactly when the outcome
    recorded in [validation_result] is valid. *)
Theorem final_json_set_iff_valid (E : Env) (limit : nat)
    (pdf_file : string) (pdf_result : json) (empi : nat) (w : World) :
  Forall (fun c => final_matches_outcome (c_state c))
    (fst (ainvoke E limit (initial_state pdf_file pdf_result empi) w)) /\
  (forall s' w',
     snd (ainvoke E limit (initial_state pdf_file pdf_result empi) w)
     = (Ok s', w') ->
     final_matches_outcome s').
Proof.
  destruct (run_from_invariant E (outcome_recorded)
              (fun s' _ => final_matches_outcome s')
              (outcome_recorded_step E) limit Generator
              (initial_state pdf_file pdf_result empi) w)
    as [Hsteps Hfin].
  - split; [reflexivity|]. split; [reflexivity|discriminate].
  - split; [|exact Hfin].
    eapply Forall_impl; [exact Hsteps|]. intros c [H _]. exact H.
Qed.

(** ** The audit trail of a run *)




(** When every repair raises, [retry_count] stays at 0 and only the step
    limit ends the run: one row per step. *)
Example failing_repairs_fill_the_step_limit :
  rows_written world0
    (snd (snd (ainvoke offline_env default_recursion_limit state0 world0))) = 25 /\
  fst (snd (ainvoke offline_env default_recursion_limit state0 world0)) =
    Raise "GraphRecursionError".
Proof. split; vm_compute; reflexivity. Qed.

(** ** Errors raised inside a step *)

(** What a step does when its [try] block raises.  The step is [generator]
    or [fixer] (the blocks of [validator], [poster] and [logger_node] never
    raise).  It returns the state it was given with [error_message] set to
    the error text, after one call of [log_operation] with [success=False]
    and that text; and the edge taken next leads to [validator], as it does
    after a successful step: no edge of the graph looks at
    [error_message]. *)
Lemma raised_error_is_recorded_and_run_goes_on
    (E : Env) (n : node) (state : AgentState) (w : World)
    (e : string) (w1 : World) :
  node_body E n state w = (Raise e, w1) ->
  (n = Generator \/ n = Fixer) /\
  (exists row,
     run_node E n state w =
       (Ok (with_error_message e state),
        {| tick := S (tick w1); heap := heap w1;
           audit_log := if sqlite_insert_ok E (tick w1)
                        then audit_log w1 ++ [row] else audit_log w1;
           sent := sent w1 |}) /\
     a_success row = JBool false /\ a_error_message row = Some e) /\
  next_node n (with_error_message e state) = Some Validator.
Proof.
  intros Hbody. destruct n; simpl in *.
  - split; [auto|]. split; [|reflexivity].
    unfold generator, try_catch. rewrite Hbody.
    unfold generator_handler, bind, ret. rewrite log_operation_result.
    eexists. split; [reflexivity|]. split; reflexivity.
  - destruct (validator_body_effect E state w) as (r & w' & H & _).
    congruence.
  - split; [auto|]. split; [|reflexivity].
    unfold fixer, try_catch. rewrite Hbody.
    unfold fixer_handler, bind, ret. rewrite log_operation_result.
    eexists. split; [reflexivity|]. split; reflexivity.
  - destruct (poster_body_effect E state w) as (r & w' & H & _).
    congruence.
  - destruct (logger_body_effect E state w) as (w' & H & _).
    congruence.
Qed.

Lemma raised_error_is_recorded_and_run_goes_on_witness :
  (Generator = Generator \/ Generator = Fixer) /\
  (exists row,
     run_node offline_env Generator state0 world0 =
       (Ok (with_error_message no_patients state0),
        {| tick := 2; heap := [JObj []];
           audit_log := if sqlite_insert_ok offline_env 1
                        then [] ++ [row] else [];
           sent := [{| rq_method := GET;
                       rq_url := fhir_base_url +:+ "/Patient?_count=1";
                       rq_params := []; rq_json := None |}] |}) /\
     a_success row = JBool false /\ a_error_message row = Some no_patients) /\
  next_node Generator (with_error_message no_patients state0) = Some Validator.
Proof.
  apply (raised_error_is_recorded_and_run_goes_on offline_env Generator
           state0 world0 no_patients
           {| tick := 1; heap := [JObj []]; audit_log := [];
              sent := [{| rq_method := GET;
                          rq_url := fhir_base_url +:+ "/Patient?_count=1";
                          rq_params := []; rq_json := None |}] |}).
  vm_compute. reflexivity.
Defined.

(** With no registry to ask, [generator] raises, and the run is not cut
    short: [validator] runs next on the empty draft, with [error_message]
    set, and [fixer] after it. *)
Lemma failed_generate_is_followed_by_validate_and_repair :
  step_raises offline_env
    {| c_node := Generator; c_state := state0; c_world := world0 |} = true /\
  (exists c1 c2 rest,
     fst (ainvoke offline_env default_recursion_limit state0 world0) =
       {| c_node := Generator; c_state := state0; c_world := world0 |}
       :: c1 :: c2 :: rest /\
     c_node c1 = Validator /\
     error_message (c_state c1) = no_patients /\
     c_node c2 = Fixer).
Proof.
  split; [vm_compute; reflexivity|].
  eexists _, _, _. split; [vm_compute; reflexivity|].
  split; [reflexivity|]. split; reflexivity.
Qed.

(** ** A failed generation is not the end of the run *)

(** C1. The code does not cut a run short when [generator] raises.  With
    no patient loaded in the registry, [generator] raises and sets
    [error_message]; the run then goes on with [validator], [fixer] (which
    has a draft written from the empty one), [validator], [poster] and
    [logger_node], every one of them with [error_message] set.  A resource
    is submitted to the registry, and [process_referral] answers
    [success=False] with the error of [generator]. *)
Theorem failed_generate_is_repaired_and_submitted :
  exists state w1,
    prepare_state empty_registry_env "referral.pdf" None fresh_world
      = (Ok state, w1) /\
    step_raises empty_registry_env
      {| c_node := Generator; c_state := state; c_world := w1 |} = true /\
    map (fun c => (c_node c, error_message (c_state c)))
      (fst (ainvoke empty_registry_env default_recursion_limit state w1)) =
      [(Generator, EmptyString); (Validator, no_patients);
       (Fixer, no_patients); (Validator, no_patients);
       (Poster, no_patients); (Logger, no_patients)] /\
    submissions w1 = 0%nat /\
    submissions
      (snd (process_referral empty_registry_env default_recursion_limit
              "referral.pdf" None fresh_world)) = 1%nat /\
    fst (process_referral empty_registry_env default_recursion_limit
           "referral.pdf" None fresh_world) =
      Ok [("success", JBool false); ("error", JStr no_patients);
          ("retry_count", JNum 1)].
Proof.
  eexists _, _. split; [vm_compute; reflexivity|].
  repeat split; vm_compute; reflexivity.
Qed.

(** ** What [generator] does to its inputs *)

(** ** The identity object, exactly *)

Lemma search_one_patient (E : Env) (w : World) :
  registry_patient E w =
    match fst (search_one E "Patient" w) with
    | Ok found => found
    | Raise _ => None
    end /\
  heap (snd (search_one E "Patient" w)) = heap w.
Proof.
  split; [|apply keeps_heap_search_one].
  unfold registry_patient, search_one, bind, http_send, lift, ret.
  fold (search_request "Patient").
  destruct (http E (tick w) (search_request "Patient")) as [resp|e];
    [|reflexivity].
  destruct (status_code resp =? 200); [|reflexivity].
  cbn [fst snd]. destruct (body_json resp) as [data|e]; [|reflexivity].
  destruct (first_entry_id data); reflexivity.
Qed.

(** What "Get a real patient ID" leaves in the store: the object behind
    [empi_info] gets the two keys when the registry names a patient and the
    object is a dict; nothing changes otherwise. *)
Lemma get_real_patient_id_store (E : Env) (l : nat) (w : World) :
  heap (snd (get_real_patient_id E l w)) =
    match registry_patient E w, heap w !! l with
    | Some id, Some (JObj d) =>
        <[l := JObj (dict_set (dict_set d "id" id) "reference"
                       (JStr ("Patient/" +:+ py_str E id)))]> (heap w)
    | _, _ => heap w
    end.
Proof.
  destruct (search_one_patient E w) as [-> Hheap].
  unfold get_real_patient_id, try_catch. unfold bind at 1.
  destruct (search_one E "Patient" w) as [[[id|]|e] w1]; cbn [fst snd] in *;
    try (unfold ret; cbn [snd]; exact Hheap).
  unfold bind, heap_setitem, deref, ret. rewrite Hheap.
  destruct (heap w !! l) as [o|] eqn:Hl; cbn [default];
    [|cbn; exact Hheap].
  destruct o as [| | | | |d]; cbn; try exact Hheap.
  rewrite list_lookup_insert_eq by (eapply lookup_lt_Some; exact Hl).
  cbn. rewrite list_insert_insert_eq. reflexivity.
Qed.

Section IdentityObject.

Context (E : Env).

Lemma generator_body_store (state : AgentState) (w : World) :
  heap (snd (generator_body E state w)) =
    match pdf_content_of state with
    | Ok _ => heap (snd (get_real_patient_id E (empi_data state) w))
    | Raise _ => heap w
    end.
Proof.
  unfold pdf_content_of, exn_bind.
  destruct (generator_body E state w) as [r0 w0] eqn:H. cbn [snd].
  unfold generator_body in H.
  apply bind_inv in H.
  destruct H as [(data & w1 & Hdata & H)|(e & Hdata & ->)];
    unfold lift in Hdata; injection Hdata as Hdata <-; rewrite Hdata;
    [|reflexivity].
  apply bind_inv in H.
  destruct H as [(content & w1 & Htext & H)|(e & Htext & ->)];
    unfold lift in Htext; injection Htext as Htext <-; rewrite Htext;
    [|reflexivity].
  cbv zeta in H. apply bind_inv in H.
  destruct H as [(id & w1 & Hid & H)|(e & Hid & ->)]; rewrite Hid;
    [|reflexivity].
  cbn [snd]. minv.
  all: repeat match goal with
    | H : get_real_practitioner_id _ _ = _ |- _ =>
        apply (keeps_run heap) in H;
        [|apply keeps_heap_get_real_practitioner_id]
    | H : llm_call _ _ _ = _ |- _ =>
        apply (keeps_run heap) in H; [|apply keeps_heap_llm_call]
    | H : parse_llm_json _ _ _ = _ |- _ =>
        apply (keeps_run heap) in H; [|apply keeps_parse_llm_json]
    | H : heap_read _ _ = _ |- _ =>
        unfold heap_read in H; inversion H; subst; clear H
    | H : log_operation _ _ _ _ _ _ _ _ = _ |- _ =>
        apply (keeps_run heap) in H; [|apply keeps_heap_log_operation]
    end.
  all: congruence.
Qed.

Lemma generator_store (state : AgentState) (w : World) :
  heap (snd (generator E state w)) = heap (snd (generator_body E state w)).
Proof.
  unfold generator, try_catch.
  destruct (generator_body E state w) as [[s'|e] w1]; [reflexivity|].
  cbn [snd]. unfold generator_handler.
  destruct (bind _ _ w1) as [r w2] eqn:H. cbn [snd]. minv.
  all: match goal with
    | H : log_operation _ _ _ _ _ _ _ _ = _ |- _ =>
        apply (keeps_run heap) in H; [|apply keeps_heap_log_operation]
    end.
  all: congruence.
Qed.

End IdentityObject.

(** C6, as the code has it.  [generator] returns a state with the same
    [pdf_path], the same [pdf_data] and the same [empi_data] reference.  The
    store after it is determined by the registry's answer: when
    [pdf_data["data"]["text_content"]] exists, the patient search names a
    patient and the object behind [empi_data] is a dict, that object has
    [id] set to the patient's id and [reference] to "Patient/<id>", whether
    [generator] then succeeds or fails; in every other case the store is
    as it was.  No other object is updated. *)
Theorem generator_updates_only_empi_data (E : Env) (state : AgentState)
    (w : World) :
  (exists s',
     fst (generator E state w) = Ok s' /\
     pdf_path s' = pdf_path state /\
     pdf_data s' = pdf_data state /\ empi_data s' = empi_data state) /\
  heap (snd (generator E state w)) =
    match pdf_content_of state, registry_patient E w,
          heap w !! empi_data state with
    | Ok _, Some id, Some (JObj d) =>
        <[empi_data state :=
            JObj (dict_set (dict_set d "id" id) "reference"
                    (JStr ("Patient/" +:+ py_str E id)))]> (heap w)
    | _, _, _ => heap w
    end.
Proof.
  split.
  - destruct (generator_effect E state w) as (s' & w' & Hrun & Hs & _).
    exists s'. rewrite Hrun. split; [reflexivity|].
    destruct Hs as [[d ->]|[e ->]]; repeat split; reflexivity.
  - rewrite generator_store, generator_body_store, get_real_patient_id_store.
    destruct (pdf_content_of state); [|reflexivity].
    destruct (registry_patient E w) as [id|]; [|reflexivity].
    destruct (heap w !! empi_data state) as [[| | | | |d]|]; reflexivity.
Qed.

(** C6 as stated fails: with a patient in the registry, the dict behind
    [empi_data] is empty before [generator] and names the patient after. *)
Lemma generator_mutates_empi_data :
  deref (empi_data state0) world0 = JObj [] /\
  deref (empi_data state0) (snd (generator demo_env state0 world0)) =
    JObj [("id", JStr "p1"); ("reference", JStr "Patient/p1")] /\
  (exists s', fst (generator demo_env state0 world0) = Ok s' /\
              empi_data s' = empi_data state0).
Proof.
  split; [reflexivity|]. split; [vm_compute; reflexivity|].
  eexists. split; [vm_compute; reflexivity|reflexivity].
Qed.

(** ** The optional patient lookup *)

(** When the EMPI cannot be reached, or answers with a status other than
    200, [lookup_patient] returns a dict with [success=False]. *)
Lemma lookup_patient_failure (E : Env) (email : string) (w : World) :
  truthy (JStr email) = true ->
  (forall resp,
     http E (tick w)
       {| rq_method := GET; rq_url := empi_service_url +:+ "/patient";
          rq_params := [("email", JStr email)]; rq_json := None |} = Ok resp ->
     status_code resp <> 200) ->
  lookup_unavailable E (Some email) w.
Proof.
  intros Hemail Hhttp. right.
  unfold lookup_patient, try_catch, bind, http_send. rewrite Hemail.
  destruct (http E (tick w) _) as [resp|e] eqn:Hresp.
  - specialize (Hhttp resp eq_refl).
    destruct (status_code resp =? 200) eqn:H200; [lia|].
    eexists. split; reflexivity.
  - eexists. split; reflexivity.
Qed.

Lemma lookup_patient_total (E : Env) (email : option string) (w : World) :
  exists r w', lookup_patient E empi_service_url email w = (Ok r, w').
Proof.
  unfold lookup_patient.
  apply total_try_catch. intros e w0. unfold ret. eauto.
Qed.

Lemma optional_empi_lookup_unavailable (E : Env) (patient_email : option string)
    (w : World) :
  lookup_unavailable E patient_email w ->
  exists w', optional_empi_lookup E patient_email w = (Ok (JObj []), w').
Proof.
  unfold lookup_unavailable, optional_empi_lookup.
  destruct patient_email as [email|]; [|unfold ret; eauto].
  intros [Hempty|(r & Hr & Hfail)].
  - rewrite Hempty. unfold ret. eauto.
  - destruct (truthy (JStr email)); [|unfold ret; eauto].
    unfold bind.
    destruct (lookup_patient E empi_service_url (Some email) w)
      as [res w1]. simpl in Hr. subst res.
    unfold lift. simpl. rewrite Hfail. unfold ret. eauto.
Qed.

(** When the PDF exists and its text was extracted, a lookup that gives no
    usable answer in a dict (no email, an empty one, or an EMPI result that
    is a dict whose [success] is not true) does not stop
    [process_referral]: the initial
    state is built with an empty dict as [empi_data], the workflow is invoked
    on it, its first step is [generator], and what [process_referral]
    returns is what the workflow's result gives. *)
Lemma failed_lookup_starts_workflow_with_empty_empi
    (E : Env) (limit : nat) (pdf_path : string)
    (patient_email : option string) (w : World) (d : dict) (w1 : World) :
  path_exists E pdf_path = true ->
  extract_pdf E pdf_service_url (path_str E pdf_path) w = (Ok (JObj d), w1) ->
  truthy (dict_get_default d "success" (JBool false)) = true ->
  lookup_unavailable E patient_email w1 ->
  exists state w2,
    prepare_state E pdf_path patient_email w = (Ok state, w2) /\
    state = initial_state (path_str E pdf_path) (JObj d) (empi_data state) /\
    deref (empi_data state) w2 = JObj [] /\
    hd_error (fst (ainvoke E (S limit) state w2)) =
      Some {| c_node := Generator; c_state := state; c_world := w2 |} /\
    process_referral E (S limit) pdf_path patient_email w =
      (match fst (snd (ainvoke E (S limit) state w2)) with
       | Ok result => Ok (referral_result pdf_path result)
       | Raise e => Ok (failure e)
       end,
       snd (snd (ainvoke E (S limit) state w2))).
Proof.
  intros Hexists Hextract Hsuccess Hlookup.
  destruct (optional_empi_lookup_unavailable E patient_email w1 Hlookup)
    as (w' & Hempi).
  set (w2 := {| tick := tick w'; heap := heap w' ++ [JObj []];
                audit_log := audit_log w'; sent := sent w' |}).
  set (state := initial_state (path_str E pdf_path) (JObj d) (length (heap w'))).
  assert (Hprep : prepare_state E pdf_path patient_email w = (Ok state, w2)).
  { unfold prepare_state. rewrite Hexists. simpl.
    unfold bind at 1. rewrite Hextract.
    unfold bind at 1. unfold lift at 1. simpl. rewrite Hsuccess. simpl.
    unfold bind at 1. rewrite Hempi.
    unfold bind, alloc, ret. reflexivity. }
  exists state, w2. split; [assumption|]. split; [reflexivity|]. split.
  { unfold deref. simpl. rewrite list_lookup_middle; reflexivity. }
  split.
  { unfold ainvoke. simpl.
    destruct (generator_effect E state w2) as (s1 & w3 & Hgen & _).
    rewrite Hgen. simpl.
    destruct (run_from E limit Validator s1 w3). reflexivity. }
  unfold process_referral, try_catch, bind. rewrite Hprep.
  unfold run_workflow.
  destruct (ainvoke E (S limit) state w2) as [steps [[result|e] w3]];
    reflexivity.
Qed.

Lemma failed_lookup_starts_workflow_with_empty_empi_witness :
  exists state w2,
    prepare_state demo_env "referral.pdf" (Some "nonexistent@email.com")
      {| tick := 0; heap := []; audit_log := []; sent := [] |}
    = (Ok state, w2) /\
    state = initial_state "referral.pdf" extracted (empi_data state) /\
    deref (empi_data state) w2 = JObj [] /\
    hd_error (fst (ainvoke demo_env 25 state w2)) =
      Some {| c_node := Generator; c_state := state; c_world := w2 |} /\
    process_referral demo_env 25 "referral.pdf"
      (Some "nonexistent@email.com")
      {| tick := 0; heap := []; audit_log := []; sent := [] |} =
      (match fst (snd (ainvoke demo_env 25 state w2)) with
       | Ok result => Ok (referral_result "referral.pdf" result)
       | Raise e => Ok (failure e)
       end,
       snd (snd (ainvoke demo_env 25 state w2))).
Proof.
  apply (failed_lookup_starts_workflow_with_empty_empi demo_env 24
           "referral.pdf" (Some "nonexistent@email.com")
           {| tick := 0; heap := []; audit_log := []; sent := [] |}
           [("success", JBool true);
            ("data", JObj [("text_content", JStr "Test PDF content");
                           ("filename", JStr "test.pdf")])]
           {| tick := 1; heap := []; audit_log := [];
              sent := [{| rq_method := POST;
                          rq_url := pdf_service_url +:+ "/extract";
                          rq_params := []; rq_json := None |}] |}).
  - reflexivity.
  - vm_compute. reflexivity.
  - reflexivity.
  - right. eexists. split; [vm_compute; reflexivity|reflexivity].
Defined.

(** ** A lookup answered with something that is not an object *)

(** C10. A lookup that fails by being answered 200 with a JSON body that is
    not an object stops [process_referral] before the workflow:
    [lookup_patient] returns the body as it is, [empi_result.get] raises,
    and the outer handler answers [success=False].  No initial state is
    built, no step of the workflow runs (no audit row is written, the
    registry and the completion service are not contacted). *)
Theorem malformed_lookup_answer_aborts_before_generation :
  fst (lookup_patient garbled_empi_env empi_service_url
         (Some "john.doe@email.com")
         {| tick := 1; heap := []; audit_log := [];
            sent := [extract_request pdf_service_url] |}) = Ok (JList []) /\
  fst (prepare_state garbled_empi_env "referral.pdf"
         (Some "john.doe@email.com") fresh_world) =
    Raise "object has no attribute 'get'" /\
  process_referral garbled_empi_env default_recursion_limit "referral.pdf"
    (Some "john.doe@email.com") fresh_world =
    (Ok (failure "object has no attribute 'get'"),
     {| tick := 2; heap := []; audit_log := [];
        sent := [extract_request pdf_service_url;
                 lookup_request empi_service_url
                   (Some "john.doe@email.com")] |}).
Proof. repeat split; vm_compute; reflexivity. Qed.

(** Case analysis on a scrutinee of a hypothesis that has no [match]
    inside. *)
Ltac break_in H :=
  match type of H with
  | context [match ?x with _ => _ end] =>
      lazymatch x with
      | context [match _ with _ => _ end] => fail
      | _ => destruct x eqn:?
      end
  end.

(** Inversion of a computation known to have returned. *)
Ltac minv_ok :=
  repeat match goal with
  | H : bind _ _ _ = (Ok _, _) |- _ =>
      apply bind_inv in H;
      destruct H as [(? & ? & ? & H)|(? & ? & ?)]; [|discriminate]
  | H : ret _ _ = (_, _) |- _ => unfold ret in H; inversion H; subst; clear H
  | H : lift _ _ = (_, _) |- _ => unfold lift in H; inversion H; subst; clear H
  | H : raise _ _ = (_, _) |- _ =>
      unfold raise in H; inversion H; subst; clear H
  | H : (if ?b then _ else _) _ = (_, _) |- _ => destruct b eqn:?
  end.

(** ** The submission gateway *)

(** What [post_fhir] returns, by what the endpoint did: one request goes
    out in every case. *)
Lemma post_fhir_cases (E : Env) (base_url : string) (j : json) (w : World) :
  exists r,
    post_fhir E base_url j w =
      (Ok r, {| tick := S (tick w); heap := heap w; audit_log := audit_log w;
                sent := sent w ++ [post_request base_url j] |}) /\
    ((exists resp body,
        http E (tick w) (post_request base_url j) = Ok resp /\
        (status_code resp = 200 \/ status_code resp = 201) /\
        body_json resp = Ok (JObj body) /\
        r = [("success", JBool true);
             ("status_code", JNum (status_code resp));
             ("resource_id", dict_get_default body "id" JNull);
             ("response", JObj body)]) \/
     ((forall resp body,
         http E (tick w) (post_request base_url j) = Ok resp ->
         (status_code resp = 200 \/ status_code resp = 201) ->
         body_json resp <> Ok (JObj body)) /\
      exists e rest, r = ("success", JBool false) :: rest /\
                     dict_get r "error" = Some (JStr e))).
Proof.
  unfold post_fhir, try_catch, bind, http_send.
  fold (post_request base_url j).
  destruct (http E (tick w) (post_request base_url j)) as [resp|e] eqn:Hhttp.
  - destruct ((status_code resp =? 200) || (status_code resp =? 201)) eqn:Hst.
    + assert (Hcode : status_code resp = 200 \/ status_code resp = 201).
      { apply orb_true_iff in Hst. lia. }
      unfold lift, ret.
      destruct (body_json resp) as [[| | | | |body]|e] eqn:Hbody; simpl;
        try (eexists; split; [reflexivity|]; right;
             split; [intros resp' body' Hr _; injection Hr as <-;
                     rewrite Hbody; discriminate
                    |eexists _, _; split; reflexivity]).
      eexists. split; [reflexivity|]. left. eauto 8.
    + unfold ret. eexists. split; [reflexivity|]. right. split.
      * intros resp' body' Hr Hcode. injection Hr as <-.
        apply orb_false_iff in Hst. lia.
      * eexists _, _. split; reflexivity.
  - unfold ret. eexists. split; [reflexivity|]. right. split.
    + intros resp' body' Hr. discriminate.
    + eexists _, _. split; reflexivity.
Qed.

(** X1. [post_fhir] never raises and sends exactly one request.  It reports
    [success=True] exactly when the endpoint answered 200 or 201 with a JSON
    object, and then [resource_id] is that object's [id]; in every other
    case (transport error, other status, body that is not a JSON object) it
    reports [success=False] with an [error] text. *)
Theorem post_fhir_reports_what_the_endpoint_did
    (E : Env) (base_url : string) (resource_json : json) (w : World) :
  sent (snd (post_fhir E base_url resource_json w)) =
    sent w ++ [post_request base_url resource_json] /\
  exists r,
    fst (post_fhir E base_url resource_json w) = Ok r /\
    ((dict_get r "success" = Some (JBool true) /\
      exists resp body,
        http E (tick w) (post_request base_url resource_json) = Ok resp /\
        (status_code resp = 200 \/ status_code resp = 201) /\
        body_json resp = Ok (JObj body) /\
        dict_get r "resource_id" = Some (dict_get_default body "id" JNull)) \/
     (dict_get r "success" = Some (JBool false) /\
      (exists e, dict_get r "error" = Some (JStr e)) /\
      forall resp body,
        http E (tick w) (post_request base_url resource_json) = Ok resp ->
        (status_code resp = 200 \/ status_code resp = 201) ->
        body_json resp <> Ok (JObj body))).
Proof.
  destruct (post_fhir_cases E base_url resource_json w) as (r & -> & Hr).
  split; [reflexivity|]. exists r. split; [reflexivity|].
  destruct Hr as [(resp & body & Hhttp & Hcode & Hbody & ->)
                 |(Hnot & e & rest & -> & Herr)].
  - left. split; [reflexivity|]. exists resp, body. auto.
  - right. split; [reflexivity|]. split; [eauto|assumption].
Qed.

Lemma poster_always_hands_over_to_logger_aux
    (E : Env) (state : AgentState) (w : World) :
  exists r w',
    poster E state w = (Ok (with_posting_result r state), w') /\
    sent w' = sent w ++ [post_request fhir_base_url (final_json state)].
Proof.
  destruct (post_fhir_cases E fhir_base_url (final_json state) w)
    as (r & Hpost & _).
  exists r. eexists. split.
  - unfold poster, try_catch, poster_body, bind. rewrite Hpost.
    rewrite log_operation_result. reflexivity.
  - reflexivity.
Qed.

(** X2. [poster] never fails the run: whatever the endpoint does, it returns
    the state with a non-empty [posting_result] and [error_message] as it
    was, after exactly one POST of [final_json], and the next step is
    [logger_node]; the edge from poster to END is never taken. *)
Theorem poster_always_hands_over_to_logger
    (E : Env) (state : AgentState) (w : World) :
  exists r w',
    poster E state w = (Ok (with_posting_result r state), w') /\
    next_node Poster (with_posting_result r state) = Some Logger /\
    sent w' = sent w ++ [post_request fhir_base_url (final_json state)] /\
    (dict_get r "success" = Some (JBool true) \/
     dict_get r "success" = Some (JBool false)).
Proof.
  destruct (post_fhir_cases E fhir_base_url (final_json state) w)
    as (r & Hpost & Hr).
  exists r. eexists. split.
  { unfold poster, try_catch, poster_body, bind. rewrite Hpost.
    rewrite log_operation_result. reflexivity. }
  destruct Hr as [(resp & body & _ & _ & _ & ->)|(_ & e & rest & -> & _)];
    (split; [reflexivity|]); (split; [reflexivity|]); auto.
Qed.

(** ** More on the validation gateway *)

Lemma validate_local_none_inv (E : Env) (j : json) (w w' : World) :
  validate_local E j w = (Ok None, w') ->
  exists d,
    j = JObj d /\
    py_eq_str (dict_get_default d "resourceType" JNull) "ServiceRequest" = true /\
    fhirclient_parse E j = Ok tt.
Proof.
  unfold validate_local, try_catch, bind, lift, ret.
  destruct j as [| | | | |d]; simpl; try discriminate.
  destruct (py_eq_str _ _) eqn:Hrt; [|discriminate].
  destruct (fhirclient_parse E (JObj d)) as [[]|e] eqn:Hparse; [|discriminate].
  intros _. eauto.
Qed.

(** X3. [validate_fhir] reports [valid=True] only when the resource is a dict
    of type ServiceRequest that the local model class accepted, and the
    endpoint, asked once, answered 200 with a JSON object. *)
Theorem valid_outcome_needs_server_approval
    (E : Env) (base_url : string) (resource_json : json) (w : World)
    (r : dict) (w' : World) :
  validate_fhir E base_url resource_json w = (Ok r, w') ->
  truthy (is_valid r) = true ->
  exists d resp body,
    resource_json = JObj d /\
    py_eq_str (dict_get_default d "resourceType" JNull) "ServiceRequest" = true /\
    fhirclient_parse E resource_json = Ok tt /\
    http E (tick w) (validate_request base_url resource_json) = Ok resp /\
    status_code resp = 200 /\
    body_json resp = Ok (JObj body) /\
    sent w' = sent w ++ [validate_request base_url resource_json].
Proof.
  unfold validate_fhir. intros Hrun Hvalid.
  destruct (validate_local_pure E resource_json w) as (early & Hloc & Hearly).
  unfold try_catch in Hrun. unfold bind at 1 in Hrun. rewrite Hloc in Hrun.
  destruct Hearly as [[-> _]|[e ->]].
  - apply validate_local_none_inv in Hloc. destruct Hloc as (d & -> & Hrt & Hp).
    unfold bind at 1 in Hrun. unfold http_send in Hrun.
    fold (validate_request base_url (JObj d)) in Hrun.
    destruct (http E (tick w) (validate_request base_url (JObj d)))
      as [resp|e] eqn:Hhttp.
    + destruct (status_code resp =? 200) eqn:H200.
      * unfold bind, lift, ret in Hrun.
        destruct (body_json resp) as [[| | | | |body]|e] eqn:Hbody;
          simpl in Hrun;
          try (injection Hrun as <- <-; discriminate).
        exists d, resp, body.
        assert (Hw : sent w' = sent w ++ [validate_request base_url (JObj d)]).
        { repeat (break_in Hrun; simpl in Hrun);
            inversion Hrun; subst; reflexivity. }
        repeat split; try assumption; lia.
      * unfold ret in Hrun. injection Hrun as <- <-. discriminate.
    + unfold ret in Hrun. injection Hrun as <- <-. discriminate.
  - unfold ret in Hrun. injection Hrun as <- <-. discriminate.
Qed.

Lemma valid_outcome_needs_server_approval_witness :
  exists d resp body,
    draft3 = JObj d /\
    py_eq_str (dict_get_default d "resourceType" JNull) "ServiceRequest" = true /\
    fhirclient_parse demo_env draft3 = Ok tt /\
    http demo_env (tick world0) (validate_request fhir_base_url draft3) = Ok resp /\
    status_code resp = 200 /\
    body_json resp = Ok (JObj body) /\
    sent (snd (validate_fhir demo_env fhir_base_url draft3 world0)) =
      sent world0 ++ [validate_request fhir_base_url draft3].
Proof.
  apply (valid_outcome_needs_server_approval demo_env fhir_base_url draft3
           world0 (validation true [])
           (snd (validate_fhir demo_env fhir_base_url draft3 world0))).
  - vm_compute. reflexivity.
  - reflexivity.
Defined.

(** The loop over the issues of an OperationOutcome keeps, in order, the
    diagnostics of the issues of severity error or fatal. *)
Lemma collect_errors_dicts (issues : list dict) (acc : list json) :
  collect_errors (map JObj issues) acc =
  Ok (acc ++ map diagnostics_of (List.filter severe issues)).
Proof.
  revert acc. induction issues as [|issue issues IH]; intros acc; simpl.
  - rewrite app_nil_r. reflexivity.
  - unfold severe at 1.
    destruct (py_eq_str _ "error" || py_eq_str _ "fatal"); simpl.
    + rewrite IH. rewrite <- app_assoc. reflexivity.
    + apply IH.
Qed.

(** X4. When the endpoint answers 200 with an OperationOutcome whose issues
    are objects, only the issues of severity error or fatal count: the
    outcome is valid exactly when there is none, and otherwise its errors
    are their diagnostics, in order, with "Unknown error" for an issue that
    has none.  Warnings and informational issues never invalidate a
    resource. *)
Theorem only_error_and_fatal_issues_invalidate
    (E : Env) (base_url : string) (resource_json : json) (w : World)
    (resp : response) (body : dict) (issues : list dict) :
  fst (validate_local E resource_json w) = Ok None ->
  http E (tick w) (validate_request base_url resource_json) = Ok resp ->
  status_code resp = 200 ->
  body_json resp = Ok (JObj body) ->
  dict_get body "resourceType" = Some (JStr "OperationOutcome") ->
  dict_get body "issue" = Some (JList (map JObj issues)) ->
  fst (validate_fhir E base_url resource_json w) =
    Ok (match List.filter severe issues with
        | [] => validation true []
        | bad => validation false (map diagnostics_of bad)
        end).
Proof.
  intros Hloc Hhttp H200 Hbody Hrt Hissue.
  destruct (validate_local_pure E resource_json w) as (early & Hl & _).
  rewrite Hl in Hloc. simpl in Hloc. injection Hloc as ->.
  unfold validate_fhir, try_catch. unfold bind at 1. rewrite Hl.
  unfold bind at 1. unfold http_send.
  fold (validate_request base_url resource_json). rewrite Hhttp, H200.
  unfold bind, lift, ret. rewrite Hbody. simpl.
  unfold dict_get_default. rewrite Hrt, Hissue. simpl.
  rewrite collect_errors_dicts. simpl.
  destruct (List.filter severe issues); reflexivity.
Qed.

Lemma only_error_and_fatal_issues_invalidate_witness :
  fst (validate_fhir demo_env fhir_base_url draft0 world0) =
    Ok (validation false [JStr "Missing required field: requester"]).
Proof.
  apply (only_error_and_fatal_issues_invalidate demo_env fhir_base_url draft0
           world0
           {| status_code := 200;
              text := dumps (outcome_of [missing_requester]);
              body_json := Ok (outcome_of [missing_requester]) |}
           [("resourceType", JStr "OperationOutcome");
            ("issue", JList [missing_requester])]
           [[("severity", JStr "error");
             ("diagnostics", JStr "Missing required field: requester")]]);
    reflexivity.
Defined.

(** ** Submission within a run *)

Section Submission.

Context (E : Env).

Lemma submissions_app w rq :
  length (List.filter is_submission (sent w ++ [rq])) =
  (submissions w + if is_submission rq then 1 else 0)%nat.
Proof.
  unfold submissions. rewrite List.filter_app, length_app. simpl.
  destruct (is_submission rq); reflexivity.
Qed.

Lemma keeps_submissions_http_send rq :
  is_submission rq = false -> keeps submissions (http_send E rq).
Proof.
  intros Hrq w. unfold http_send, submissions at 1. simpl.
  rewrite submissions_app, Hrq. lia.
Qed.

Lemma keeps_submissions_search_one kind :
  keeps submissions (search_one E kind).
Proof.
  unfold search_one. apply keeps_bind.
  - apply keeps_submissions_http_send. reflexivity.
  - intros resp. repeat keeps_step; keeps_leaf.
Qed.

Lemma keeps_submissions_heap_setitem l k v :
  keeps submissions (heap_setitem l k v).
Proof. unfold heap_setitem. keeps_leaf. Qed.

Lemma keeps_submissions_log_operation op i o s e r :
  keeps submissions (log_operation E op i o s e r).
Proof. keeps_leaf. Qed.

Lemma keeps_submissions_llm_call p : keeps submissions (llm_call E p).
Proof. keeps_leaf. Qed.

Lemma keeps_submissions_generator s : keeps submissions (generator E s).
Proof.
  unfold generator, generator_body, generator_handler,
    get_real_patient_id, get_real_practitioner_id.
  repeat first
    [ apply keeps_submissions_search_one
    | apply keeps_submissions_heap_setitem
    | apply keeps_submissions_log_operation
    | apply keeps_submissions_llm_call
    | apply keeps_parse_llm_json
    | keeps_step ].
  all: keeps_leaf.
Qed.

Lemma validate_url_is_not_submission j :
  is_submission (validate_request fhir_base_url j) = false.
Proof. reflexivity. Qed.

Lemma keeps_submissions_validator s : keeps submissions (validator E s).
Proof.
  intros w.
  destruct (validator_effect E s w) as (r & w' & Hrun & _).
  unfold validator, try_catch, validator_body, bind in *.
  destruct (validate_fhir_outcome E fhir_base_url (draft_json s) w)
    as (r1 & w1 & Hv & _ & _ & Hsent & _).
  rewrite Hv. rewrite log_operation_result.
  assert (Hsub : submissions w1 = submissions w).
  { unfold submissions at 1. destruct Hsent as [[-> _]|[-> _]].
    - reflexivity.
    - rewrite submissions_app, validate_url_is_not_submission. lia. }
  destruct (truthy (is_valid r1)); simpl; exact Hsub.
Qed.

Lemma keeps_submissions_fixer s : keeps submissions (fixer E s).
Proof.
  unfold fixer, fixer_body, fixer_handler.
  repeat first
    [ apply keeps_submissions_log_operation
    | apply keeps_submissions_llm_call
    | apply keeps_parse_llm_json
    | keeps_step ].
Qed.

Lemma keeps_submissions_logger s : keeps submissions (logger_node E s).
Proof.
  unfold logger_node, logger_body, heap_read.
  repeat first [ apply keeps_submissions_log_operation | keeps_step ].
  keeps_leaf.
Qed.

(** Only [poster] submits, and it submits once. *)
Lemma run_node_submissions n s w :
  submissions (snd (run_node E n s w)) =
  (submissions w + match n with Poster => 1 | _ => 0 end)%nat.
Proof.
  destruct n; unfold run_node.
  - rewrite keeps_submissions_generator. lia.
  - rewrite keeps_submissions_validator. lia.
  - rewrite keeps_submissions_fixer. lia.
  - destruct (poster_always_hands_over_to_logger_aux E s w)
      as (r & w' & -> & Hs).
    simpl. unfold submissions at 1. rewrite Hs, submissions_app. reflexivity.
  - rewrite keeps_submissions_logger. lia.
Qed.

Lemma poster_steps_from limit n s w :
  (length (List.filter is_poster (fst (run_from E limit n s w))) <= 1)%nat /\
  (n = Logger ->
   length (List.filter is_poster (fst (run_from E limit n s w))) = 0%nat).
Proof.
  revert n s w. induction limit as [|limit IH]; intros n s w; simpl.
  - split; [lia|reflexivity].
  - destruct (run_node_effect E n s w) as (s1 & w1 & Hrun & _).
    rewrite Hrun.
    destruct (next_node n s1) as [n'|] eqn:Hnext.
    + destruct (IH n' s1 w1) as [IHle IHlogger].
      destruct (run_from E limit n' s1 w1) as [steps r]. simpl in *.
      destruct n; simpl in *; try (split; [lia|discriminate]).
      assert (n' = Logger) as ->
        by (destruct (should_continue s1); congruence).
      rewrite IHlogger by reflexivity. split; [lia|discriminate].
    + destruct n; simpl; split; try lia; try discriminate; reflexivity.
Qed.

Lemma run_from_submissions limit n s w :
  submissions (snd (snd (run_from E limit n s w))) =
  (submissions w
   + length (List.filter is_poster (fst (run_from E limit n s w))))%nat.
Proof.
  revert n s w. induction limit as [|limit IH]; intros n s w; simpl.
  - lia.
  - pose proof (run_node_submissions n s w) as Hsub.
    destruct (run_node_effect E n s w) as (s1 & w1 & Hrun & _).
    rewrite Hrun in *.
    change (snd (Ok s1, w1)) with w1 in Hsub.
    destruct (next_node n s1) as [n'|].
    + specialize (IH n' s1 w1).
      destruct (run_from E limit n' s1 w1) as [steps r].
      change (snd (snd (steps, r))) with (snd r) in IH.
      change (fst (steps, r)) with steps in IH.
      change (submissions (snd r) =
              (submissions w
               + length (List.filter is_poster
                           ({| c_node := n; c_state := s; c_world := w |}
                            :: steps)))%nat).
      rewrite IH, Hsub. destruct n; simpl; lia.
    + change (submissions w1 =
              (submissions w
               + length (List.filter is_poster
                           [{| c_node := n; c_state := s; c_world := w |}]))%nat).
      rewrite Hsub. destruct n; simpl; lia.
Qed.

Lemma ready_to_post_step n s w s' w' :
  ready_to_post {| c_node := n; c_state := s; c_world := w |} ->
  run_node E n s w = (Ok s', w') ->
  match next_node n s' with
  | Some n' => ready_to_post {| c_node := n'; c_state := s'; c_world := w' |}
  | None => True
  end.
Proof.
  unfold ready_to_post. simpl. intros _ Hrun.
  apply run_node_result in Hrun. destruct n; simpl in *; try discriminate.
  - destruct Hrun as (r & -> & _).
    unfold validated. destruct (truthy (is_valid r)) eqn:Hvalid;
      unfold is_valid in Hvalid;
      unfold should_retry, outcome_valid, is_valid; simpl; rewrite Hvalid.
    + intros _. split; reflexivity.
    + destruct (retry_count s <? max_retries); discriminate.
  - destruct (should_continue s'); [discriminate|exact I].
  - exact I.
Qed.

End Submission.

(** X5. In every run, from any state and under any step limit, [poster]
    runs at most once and the registry receives as many submissions as
    [poster] ran, so at most one; and [poster] is only entered with a valid
    outcome recorded and with [final_json] equal to the draft that was just
    validated. *)
Theorem at_most_one_submission_and_only_of_a_valid_draft
    (E : Env) (limit : nat) (initial : AgentState) (w : World) :
  (length (List.filter is_poster (fst (ainvoke E limit initial w))) <= 1)%nat /\
  submissions (snd (snd (ainvoke E limit initial w))) =
    (submissions w
     + length (List.filter is_poster (fst (ainvoke E limit initial w))))%nat /\
  Forall ready_to_post (fst (ainvoke E limit initial w)).
Proof.
  unfold ainvoke. split; [apply poster_steps_from|].
  split; [apply run_from_submissions|].
  apply (run_from_invariant E ready_to_post (fun _ _ => True)
           (ready_to_post_step E) limit Generator initial w).
  intros H. discriminate H.
Qed.

(** ** A run without the completion service *)

Section CompletionDown.

Context (E : Env) (Hdown : completion_down E).

Lemma llm_call_down p w r w' : llm_call E p w = (Ok r, w') -> False.
Proof.
  unfold llm_call. intros H. destruct (Hdown (tick w) p) as [e He].
  rewrite He in H. discriminate.
Qed.

Lemma generator_down s w :
  exists e w', generator E s w = (Ok (with_error_message e s), w').
Proof.
  unfold generator, try_catch.
  destruct (generator_body E s w) as [[s1|e] w1] eqn:Hbody.
  - exfalso. unfold generator_body in Hbody. minv_ok.
    match goal with
    | H : llm_call _ _ _ = (Ok _, _) |- _ => apply llm_call_down in H
    end. assumption.
  - unfold generator_handler, bind, ret. rewrite log_operation_result. eauto.
Qed.

Lemma validator_rejects_empty_draft s w :
  draft_json s = JObj [] ->
  exists w',
    validator E s w =
    (Ok (with_validation_result
           (validation false [JStr only_service_request]) s), w').
Proof.
  intros Hdraft. unfold validator, try_catch, validator_body, bind.
  rewrite Hdraft.
  unfold validate_fhir, validate_local, try_catch, bind, lift, ret. simpl.
  eexists. reflexivity.
Qed.

Lemma fixer_down s w :
  validation_result s = validation false [JStr only_service_request] ->
  exists e w', fixer E s w = (Ok (with_error_message e s), w').
Proof.
  intros Hres. unfold fixer, try_catch.
  destruct (fixer_body E s w) as [[s1|e] w1] eqn:Hbody.
  - exfalso. unfold fixer_body in Hbody. rewrite Hres in Hbody.
    simpl in Hbody. minv_ok.
    match goal with
    | H : llm_call _ _ _ = (Ok _, _) |- _ => apply llm_call_down in H
    end. assumption.
  - unfold fixer_handler, bind, ret. rewrite log_operation_result. eauto.
Qed.

Lemma stuck_run limit n s w :
  stuck {| c_node := n; c_state := s; c_world := w |} ->
  fst (snd (run_from E limit n s w)) = Raise "GraphRecursionError" /\
  length (fst (run_from E limit n s w)) = limit /\
  Forall stuck (fst (run_from E limit n s w)).
Proof.
  revert n s w. induction limit as [|limit IH]; intros n s w Hstuck.
  - simpl. auto.
  - pose proof Hstuck as (Hdraft & Hretry & Hnp & Hnl & Hfix). simpl in *.
    assert (Hnext : exists s1 w1 n',
      run_node E n s w = (Ok s1, w1) /\ next_node n s1 = Some n' /\
      stuck {| c_node := n'; c_state := s1; c_world := w1 |}).
    { destruct n; try contradiction.
      - destruct (generator_down s w) as (e & w1 & Hrun).
        exists (with_error_message e s), w1, Validator.
        split; [assumption|]. split; [reflexivity|].
        repeat split; auto; discriminate.
      - destruct (validator_rejects_empty_draft s w Hdraft) as (w1 & Hrun).
        eexists _, w1, Fixer. split; [exact Hrun|].
        split.
        + simpl. unfold should_retry. simpl. rewrite Hretry. reflexivity.
        + repeat split; auto; discriminate.
      - destruct (fixer_down s w (Hfix eq_refl)) as (e & w1 & Hrun).
        exists (with_error_message e s), w1, Validator.
        split; [assumption|]. split; [reflexivity|].
        repeat split; auto; discriminate. }
    destruct Hnext as (s1 & w1 & n' & Hrun & Hn' & Hstuck').
    rewrite Hrun, Hn'. specialize (IH n' s1 w1 Hstuck').
    destruct (run_from E limit n' s1 w1) as [steps r]. simpl in *.
    destruct IH as (Hr & Hlen & Hall).
    split; [assumption|]. split; [lia|]. constructor; assumption.
Qed.

End CompletionDown.

(** X6. When the completion service answers no call, a run started by
    [process_referral] never ends by itself: [generator] fails, the empty
    draft is rejected without asking the registry, and every repair fails
    without counting as a retry.  The run takes exactly as many steps as the
    step limit allows and ends in GraphRecursionError; [retry_count] stays 0
    and neither [poster] nor [logger_node] is ever reached. *)
Theorem run_without_completion_service_only_ends_at_step_limit
    (E : Env) (limit : nat) (pdf_file : string) (pdf_result : json)
    (empi : nat) (w : World) :
  completion_down E ->
  fst (snd (ainvoke E limit (initial_state pdf_file pdf_result empi) w)) =
    Raise "GraphRecursionError" /\
  length (fst (ainvoke E limit (initial_state pdf_file pdf_result empi) w)) =
    limit /\
  Forall
    (fun c =>
       c_node c <> Poster /\ c_node c <> Logger /\
       retry_count (c_state c) = 0 /\ draft_json (c_state c) = JObj [])
    (fst (ainvoke E limit (initial_state pdf_file pdf_result empi) w)).
Proof.
  intros Hdown.
  destruct (stuck_run E Hdown limit Generator
              (initial_state pdf_file pdf_result empi) w)
    as (Hr & Hlen & Hall).
  { repeat split; try discriminate. }
  split; [exact Hr|]. split; [exact Hlen|].
  eapply Forall_impl; [exact Hall|].
  intros c (Hd & Hrc & Hnp & Hnl & _). auto.
Qed.

Lemma run_without_completion_service_only_ends_at_step_limit_witness :
  fst (snd (ainvoke offline_env default_recursion_limit state0 world0)) =
    Raise "GraphRecursionError" /\
  length (fst (ainvoke offline_env default_recursion_limit state0 world0)) =
    default_recursion_limit /\
  Forall
    (fun c =>
       c_node c <> Poster /\ c_node c <> Logger /\
       retry_count (c_state c) = 0 /\ draft_json (c_state c) = JObj [])
    (fst (ainvoke offline_env default_recursion_limit state0 world0)).
Proof.
  apply (run_without_completion_service_only_ends_at_step_limit offline_env
           default_recursion_limit "referral.pdf" extracted 0%nat world0).
  intros t p. exists "Connection error.". reflexivity.
Defined.

(** ** How a run ends *)

Section Endings.

Context (E : Env).

Lemma next_node_none n s w s' w' :
  run_node E n s w = (Ok s', w') ->
  next_node n s' = None ->
  n = Logger /\ s' = s.
Proof.
  intros Hrun Hnext. apply run_node_result in Hrun.
  destruct n; simpl in *; try discriminate.
  - destruct (should_retry s'); discriminate.
  - destruct Hrun as (r & -> & Hr). unfold should_continue in Hnext.
    simpl in Hnext. rewrite Hr in Hnext. discriminate.
  - auto.
Qed.

Lemma run_from_ok_last limit n s w s' w' :
  snd (run_from E limit n s w) = (Ok s', w') ->
  exists c,
    last (fst (run_from E limit n s w)) = Some c /\
    c_node c = Logger /\ c_state c = s'.
Proof.
  revert n s w. induction limit as [|limit IH]; intros n s w; simpl.
  - discriminate.
  - destruct (run_node_effect E n s w) as (s1 & w1 & Hrun & _).
    rewrite Hrun. destruct (next_node n s1) as [n'|] eqn:Hnext.
    + specialize (IH n' s1 w1).
      destruct (run_from E limit n' s1 w1) as [steps r]. simpl in *.
      intros Hr. destruct (IH Hr) as (c & Hlast & Hc).
      exists c. split; [|assumption]. rewrite last_cons, Hlast. reflexivity.
    + simpl. intros Hr. injection Hr as <- <-.
      destruct (next_node_none n s w s1 w1 Hrun Hnext) as [-> ->].
      eexists. split; [reflexivity|]. split; reflexivity.
Qed.

Lemma run_from_raise_length limit n s w e :
  fst (snd (run_from E limit n s w)) = Raise e ->
  length (fst (run_from E limit n s w)) = limit.
Proof.
  revert n s w. induction limit as [|limit IH]; intros n s w; simpl.
  - reflexivity.
  - destruct (run_node_effect E n s w) as (s1 & w1 & Hrun & _).
    rewrite Hrun. destruct (next_node n s1) as [n'|].
    + specialize (IH n' s1 w1).
      destruct (run_from E limit n' s1 w1) as [steps r]. simpl in *.
      intros Hr. rewrite (IH Hr). reflexivity.
    + simpl. discriminate.
Qed.

Lemma retry_count_counts_repairs limit n s w s' w' :
  outcome_recorded {| c_node := n; c_state := s; c_world := w |} ->
  snd (run_from E limit n s w) = (Ok s', w') ->
  retry_count s' =
  retry_count s
  + Z.of_nat (successful_repairs E (fst (run_from E limit n s w))).
Proof.
  revert n s w. induction limit as [|limit IH]; intros n s w Hrec; simpl.
  - discriminate.
  - destruct (run_node_effect E n s w) as (s1 & w1 & Hrun & _).
    rewrite Hrun.
    pose proof (outcome_recorded_step E n s w s1 w1 Hrec Hrun) as Hrec'.
    assert (Hhere : retry_count s1 =
      retry_count s
      + Z.of_nat (successful_repairs E
                    [{| c_node := n; c_state := s; c_world := w |}])).
    { destruct Hrec as (_ & _ & Herr). simpl in Herr.
      apply run_node_result in Hrun.
      unfold successful_repairs, is_fixer, step_raises. simpl.
      destruct n; simpl in *.
      - destruct Hrun as [[d ->]|[e ->]]; simpl; lia.
      - destruct Hrun as (r & -> & _). rewrite retry_count_validated. lia.
      - specialize (Herr eq_refl).
        destruct Hrun as [(Hno & _)|(_ & [(d & -> & Hb)|(e & -> & Hb)])].
        + congruence.
        + destruct (fixer_body E s w) as [[s2|e2] w2]; simpl in *;
            [lia|discriminate].
        + destruct (fixer_body E s w) as [[s2|e2] w2]; simpl in *;
            [discriminate|lia].
      - destruct Hrun as (r & -> & _). simpl. lia.
      - subst. lia. }
    destruct (next_node n s1) as [n'|].
    + specialize (IH n' s1 w1 Hrec').
      destruct (run_from E limit n' s1 w1) as [steps r]. simpl in *.
      intros Hr. rewrite (IH Hr), Hhere.
      unfold successful_repairs. simpl.
      destruct (is_fixer _ && negb (step_raises E _)); simpl; lia.
    + simpl. intros Hr. injection Hr as <- <-. exact Hhere.
Qed.






End Endings.

(** X7. A run that returns a state ended in [logger_node]: the last step
    taken is the logger, and the state returned is the state the logger was
    given.  No run ends right after [validator] or [poster]. *)
Theorem completed_run_ends_in_logger
    (E : Env) (limit : nat) (initial : AgentState) (w : World)
    (s' : AgentState) (w' : World) :
  snd (ainvoke E limit initial w) = (Ok s', w') ->
  exists c,
    last (fst (ainvoke E limit initial w)) = Some c /\
    c_node c = Logger /\ c_state c = s'.
Proof. apply run_from_ok_last. Qed.

Lemma completed_run_ends_in_logger_witness :
  exists c,
    last (fst (ainvoke demo_env default_recursion_limit state0 world0)) =
      Some c /\
    c_node c = Logger /\
    c_state c =
      with_posting_result
        [("success", JBool true); ("status_code", JNum 201);
         ("resource_id", JStr "posted-request-123");
         ("response", JObj [("resourceType", JStr "ServiceRequest");
                            ("id", JStr "posted-request-123")])]
        (with_final_json draft3
           (with_validation_result (validation true [])
              (with_retry_count 3 (with_draft_json draft3 state0)))).
Proof.
  apply (completed_run_ends_in_logger demo_env default_recursion_limit
           state0 world0 _
           (snd (snd (ainvoke demo_env default_recursion_limit state0 world0)))).
  vm_compute. reflexivity.
Defined.

(** X8. A run started by [process_referral] in which no repair raises
    completes: under any step limit above 10, the default 25 among them, it
    takes at most 10 steps and returns a state instead of ending in
    GraphRecursionError. *)
Theorem run_completes_when_repairs_succeed
    (E : Env) (limit : nat) (pdf_file : string) (pdf_result : json)
    (empi : nat) (w : World) :
  (10 < limit)%nat ->
  Forall (fun c => c_node c = Fixer -> step_raises E c = false)
    (fst (ainvoke E limit (initial_state pdf_file pdf_result empi) w)) ->
  (length (fst (ainvoke E limit (initial_state pdf_file pdf_result empi) w))
   <= 10)%nat /\
  exists s' w',
    snd (ainvoke E limit (initial_state pdf_file pdf_result empi) w)
    = (Ok s', w').
Proof.
  intros Hlimit Hall. unfold ainvoke in *.
  set (s0 := initial_state pdf_file pdf_result empi) in *.
  assert (Hrec : outcome_recorded
            {| c_node := Generator; c_state := s0; c_world := w |}).
  { split; [reflexivity|]. split; [reflexivity|discriminate]. }
  assert (Hceil : within_ceiling
            {| c_node := Generator; c_state := s0; c_world := w |}).
  { split; discriminate. }
  pose proof (steps_within_budget E limit Generator s0 w Hrec Hceil Hall)
    as Hsteps.
  simpl in Hsteps. unfold max_retries in Hsteps.
  split; [lia|].
  destruct (run_from E limit Generator s0 w) as [steps [[s'|e] w']] eqn:Hrun.
  - eauto.
  - pose proof (run_from_raise_length E limit Generator s0 w e) as Hlen.
    rewrite Hrun in Hlen. simpl in *. specialize (Hlen eq_refl). lia.
Qed.

Lemma run_completes_when_repairs_succeed_witness :
  (length (fst (ainvoke demo_env default_recursion_limit state0 world0))
   <= 10)%nat /\
  exists s' w',
    snd (ainvoke demo_env default_recursion_limit state0 world0) = (Ok s', w').
Proof.
  apply (run_completes_when_repairs_succeed demo_env default_recursion_limit
           "referral.pdf" extracted 0%nat world0).
  - unfold default_recursion_limit. lia.
  - let l := eval vm_compute in
      (fst (ainvoke demo_env default_recursion_limit state0 world0)) in
    change (Forall (fun c => c_node c = Fixer -> step_raises demo_env c = false) l).
    repeat (constructor; [intros _; vm_compute; reflexivity|]).
    constructor.
Defined.

(** X9. In a run started by [process_referral] that returns a state, the
    [retry_count] returned is the number of repair steps that did not raise:
    a repair that raises is not counted, nothing else changes the count. *)
Theorem retry_count_is_number_of_successful_repairs
    (E : Env) (limit : nat) (pdf_file : string) (pdf_result : json)
    (empi : nat) (w : World) (s' : AgentState) (w' : World) :
  snd (ainvoke E limit (initial_state pdf_file pdf_result empi) w)
  = (Ok s', w') ->
  retry_count s' =
  Z.of_nat
    (successful_repairs E
       (fst (ainvoke E limit (initial_state pdf_file pdf_result empi) w))).
Proof.
  intros Hrun. unfold ainvoke in *.
  rewrite (retry_count_counts_repairs E limit Generator
             (initial_state pdf_file pdf_result empi) w s' w').
  - reflexivity.
  - split; [reflexivity|]. split; [reflexivity|discriminate].
  - exact Hrun.
Qed.

Lemma retry_count_is_number_of_successful_repairs_witness :
  retry_count
    (with_posting_result
       [("success", JBool true); ("status_code", JNum 201);
        ("resource_id", JStr "posted-request-123");
        ("response", JObj [("resourceType", JStr "ServiceRequest");
                           ("id", JStr "posted-request-123")])]
       (with_final_json draft3
          (with_validation_result (validation true [])
             (with_retry_count 3 (with_draft_json draft3 state0))))) =
  Z.of_nat
    (successful_repairs demo_env
       (fst (ainvoke demo_env default_recursion_limit state0 world0))).
Proof.
  apply (retry_count_is_number_of_successful_repairs demo_env
           default_recursion_limit "referral.pdf" extracted 0%nat world0 _
           (snd (snd (ainvoke demo_env default_recursion_limit state0 world0)))).
  vm_compute. reflexivity.
Defined.


(** ** The two service clients *)

Lemma extract_pdf_reports_failures_as_results_aux
    (E : Env) (service_url file_path : string) (w : World) :
  audit_log (snd (extract_pdf E service_url file_path w)) = audit_log w /\
  (sent (snd (extract_pdf E service_url file_path w)) = sent w \/
   sent (snd (extract_pdf E service_url file_path w)) =
     sent w ++ [extract_request service_url]).
Proof.
  unfold extract_pdf, try_catch, bind, lift, ret, http_send.
  fold (extract_request service_url).
  destruct (open_file E file_path) as [[]|e0]; [|simpl; auto].
  destruct (http E (tick w) (extract_request service_url)) as [resp|e];
    [|simpl; auto].
  destruct (status_code resp =? 200); [|simpl; auto].
  destruct (body_json resp); simpl; auto.
Qed.

(** X11. [extract_pdf] never raises and writes no audit row.  When the file
    cannot be opened it sends nothing and returns [success=False] with the
    error text; otherwise it sends exactly one POST to /extract and returns
    the decoded body of a 200 answer, or [success=False] with an error text
    for a transport error, an undecodable body or any other status. *)
Theorem extract_pdf_reports_failures_as_results
    (E : Env) (service_url file_path : string) (w : World) :
  audit_log (snd (extract_pdf E service_url file_path w)) = audit_log w /\
  match open_file E file_path with
  | Raise e =>
      extract_pdf E service_url file_path w = (Ok (JObj (failure e)), w)
  | Ok _ =>
      sent (snd (extract_pdf E service_url file_path w)) =
        sent w ++ [extract_request service_url] /\
      fst (extract_pdf E service_url file_path w) =
        match http E (tick w) (extract_request service_url) with
        | Ok resp =>
            if status_code resp =? 200
            then match body_json resp with
                 | Ok body => Ok body
                 | Raise e => Ok (JObj (failure e))
                 end
            else Ok (JObj (http_failure resp))
        | Raise e => Ok (JObj (failure e))
        end
  end.
Proof.
  unfold extract_pdf, try_catch, bind, lift, ret, http_send.
  fold (extract_request service_url).
  destruct (open_file E file_path) as [[]|e0]; [|simpl; auto].
  destruct (http E (tick w) (extract_request service_url)) as [resp|e];
    [|simpl; auto].
  destruct (status_code resp =? 200); [|simpl; auto].
  destruct (body_json resp); simpl; auto.
Qed.

(** X12. [lookup_patient] never raises and sends exactly one GET to /patient,
    with the email as its only parameter when the email is not empty and no
    parameter otherwise.  A 200 answer is returned decoded; a transport
    error, an undecodable body or any other status gives [success=False]
    with an error text. *)
Theorem lookup_patient_reports_failures_as_results
    (E : Env) (service_url : string) (email : option string) (w : World) :
  sent (snd (lookup_patient E service_url email w)) =
    sent w ++ [lookup_request service_url email] /\
  audit_log (snd (lookup_patient E service_url email w)) = audit_log w /\
  fst (lookup_patient E service_url email w) =
    match http E (tick w) (lookup_request service_url email) with
    | Ok resp =>
        if status_code resp =? 200
        then match body_json resp with
             | Ok body => Ok body
             | Raise e => Ok (JObj (failure e))
             end
        else Ok (JObj (http_failure resp))
    | Raise e => Ok (JObj (failure e))
    end.
Proof.
  unfold lookup_patient, try_catch, bind, lift, ret, http_send.
  fold (lookup_request service_url email).
  destruct (http E (tick w) (lookup_request service_url email)) as [resp|e].
  - destruct (status_code resp =? 200).
    + destruct (body_json resp); simpl; auto.
    + simpl. auto.
  - simpl. auto.
Qed.

(** ** What [process_referral] answers *)

Lemma extract_pdf_total (E : Env) (service_url file_path : string) (w : World) :
  exists r w', extract_pdf E service_url file_path w = (Ok r, w').
Proof.
  unfold extract_pdf. apply total_try_catch. intros e w0. unfold ret. eauto.
Qed.

(** X13. [process_referral] never raises.  Its result always has a boolean
    [success]; with [success=False] it carries a string [error], and with
    [success=True] it carries [final_json], [posting_result], [retry_count]
    and [resource_id]. *)
Theorem process_referral_always_answers
    (E : Env) (limit : nat) (pdf_path : string)
    (patient_email : option string) (w : World) :
  exists r,
    fst (process_referral E limit pdf_path patient_email w) = Ok r /\
    ((dict_get r "success" = Some (JBool false) /\
      exists e, dict_get r "error" = Some (JStr e)) \/
     (dict_get r "success" = Some (JBool true) /\
      exists final posting retries id,
        dict_get r "final_json" = Some final /\
        dict_get r "posting_result" = Some (JObj posting) /\
        dict_get r "retry_count" = Some (JNum retries) /\
        dict_get r "resource_id" = Some id)).
Proof.
  unfold process_referral, try_catch, bind.
  destruct (prepare_state E pdf_path patient_email w) as [[state|e] w1].
  - destruct (run_workflow E limit state w1) as [[result|e] w2].
    + unfold ret, referral_result. eexists. split; [reflexivity|].
      destruct (truthy (JStr (error_message result))).
      * left. split; [reflexivity|]. eexists. reflexivity.
      * right. split; [reflexivity|]. eexists _, _, _, _.
        repeat split; reflexivity.
    + unfold ret. eexists. split; [reflexivity|]. left.
      split; [reflexivity|]. eexists. reflexivity.
  - unfold ret. eexists. split; [reflexivity|]. left.
    split; [reflexivity|]. eexists. reflexivity.
Qed.

(** X14. When the PDF path does not exist, [process_referral] answers
    [success=False] with "PDF file not found: <path>" and touches nothing:
    no request is sent, no audit row is written, no object is created. *)
Theorem missing_pdf_is_reported_before_any_call
    (E : Env) (limit : nat) (pdf_path : string)
    (patient_email : option string) (w : World) :
  path_exists E pdf_path = false ->
  process_referral E limit pdf_path patient_email w =
  (Ok (failure ("PDF file not found: " +:+ pdf_path)), w).
Proof.
  intros Hmissing.
  unfold process_referral, try_catch, bind, prepare_state.
  rewrite Hmissing. reflexivity.
Qed.

Lemma missing_pdf_is_reported_before_any_call_witness :
  process_referral
    {| http := demo_http; llm := demo_llm;
       json_loads := loads_among []; fhirclient_parse := fun _ => Ok tt;
       sqlite_insert_ok := fun _ => true; py_str := str_of;
       path_exists := fun _ => false; path_str := fun p => p;
       open_file := fun _ => Ok tt |}
    default_recursion_limit "missing.pdf" None world0 =
  (Ok (failure "PDF file not found: missing.pdf"), world0).
Proof.
  apply (missing_pdf_is_reported_before_any_call
           {| http := demo_http; llm := demo_llm;
              json_loads := loads_among []; fhirclient_parse := fun _ => Ok tt;
              sqlite_insert_ok := fun _ => true; py_str := str_of;
              path_exists := fun _ => false; path_str := fun p => p;
              open_file := fun _ => Ok tt |}
           default_recursion_limit "missing.pdf" None world0).
  reflexivity.
Defined.

(** X15. When the extraction service does not report success, the workflow
    is not started: [process_referral] answers [success=False] with "PDF
    extraction failed: <error>", in the world the extraction left, with no
    audit row written and the EMPI and the registry not contacted. *)
Theorem failed_extraction_stops_before_the_workflow
    (E : Env) (limit : nat) (pdf_path : string)
    (patient_email : option string) (w : World) (d : dict) (w1 : World) :
  path_exists E pdf_path = true ->
  extract_pdf E pdf_service_url (path_str E pdf_path) w = (Ok (JObj d), w1) ->
  truthy (dict_get_default d "success" (JBool false)) = false ->
  process_referral E limit pdf_path patient_email w =
    (Ok (failure ("PDF extraction failed: "
                  +:+ py_str E (dict_get_default d "error" JNull))), w1) /\
  audit_log w1 = audit_log w /\
  (sent w1 = sent w \/ sent w1 = sent w ++ [extract_request pdf_service_url]).
Proof.
  intros Hexists Hextract Hfail. split.
  - unfold process_referral, try_catch. unfold bind at 1.
    unfold prepare_state. rewrite Hexists. simpl.
    unfold bind at 1. rewrite Hextract.
    unfold bind, lift, raise. simpl. rewrite Hfail. reflexivity.
  - destruct (extract_pdf_reports_failures_as_results_aux E pdf_service_url
                (path_str E pdf_path) w) as (Ha & Hs).
    rewrite Hextract in *. simpl in *. auto.
Qed.

Lemma failed_extraction_stops_before_the_workflow_witness :
  process_referral offline_env default_recursion_limit "referral.pdf"
    (Some "john.doe@email.com") world0 =
    (Ok (failure ("PDF extraction failed: "
                  +:+ py_str offline_env
                        (dict_get_default
                           (failure "All connection attempts failed")
                           "error" JNull))),
     {| tick := 1; heap := [JObj []]; audit_log := [];
        sent := [extract_request pdf_service_url] |}) /\
  audit_log {| tick := 1; heap := [JObj []]; audit_log := [];
               sent := [extract_request pdf_service_url] |} =
    audit_log world0 /\
  (sent {| tick := 1; heap := [JObj []]; audit_log := [];
           sent := [extract_request pdf_service_url] |} = sent world0 \/
   sent {| tick := 1; heap := [JObj []]; audit_log := [];
           sent := [extract_request pdf_service_url] |} =
     sent world0 ++ [extract_request pdf_service_url]).
Proof.
  apply (failed_extraction_stops_before_the_workflow offline_env
           default_recursion_limit "referral.pdf" (Some "john.doe@email.com")
           world0 (failure "All connection attempts failed")
           {| tick := 1; heap := [JObj []]; audit_log := [];
              sent := [extract_request pdf_service_url] |}).
  - reflexivity.
  - reflexivity.
  - reflexivity.
Defined.

Section Unsubmitted.

Context (E : Env).

Lemma outcome_valid_validated r s :
  outcome_valid (validated r s) = truthy (is_valid r).
Proof.
  unfold validated, outcome_valid.
  destruct (truthy (is_valid r)) eqn:Hvalid; simpl; exact Hvalid.
Qed.

Lemma not_yet_valid_step n s w s' w' :
  not_yet_valid {| c_node := n; c_state := s; c_world := w |} ->
  run_node E n s w = (Ok s', w') ->
  match next_node n s' with
  | Some n' => not_yet_valid {| c_node := n'; c_state := s'; c_world := w' |}
  | None => nothing_submitted s'
  end.
Proof.
  intros (Hrec & Hready & Hbefore & Hnothing) Hrun.
  pose proof (outcome_recorded_step E n s w s' w' Hrec Hrun) as Hrec'.
  pose proof (ready_to_post_step E n s w s' w' Hready Hrun) as Hready'.
  assert (Hrest :
    (forall n', next_node n s' = Some n' ->
       n' <> Poster -> n' <> Logger -> outcome_valid s' = false) /\
    nothing_submitted s').
  { destruct Hrec as (_ & _ & Herr). simpl in *.
    apply run_node_result in Hrun. unfold nothing_submitted in *.
    destruct n; simpl in *.
    - assert (Hs : outcome_valid s = false) by (apply Hbefore; discriminate).
      destruct Hrun as [[d ->]|[e ->]]; split; auto.
    - assert (Hs : outcome_valid s = false) by (apply Hbefore; discriminate).
      destruct Hrun as (r & -> & _). split.
      + intros n' Hnext Hnp Hnl. rewrite outcome_valid_validated.
        unfold should_retry in Hnext. unfold validated in Hnext.
        destruct (truthy (is_valid r)) eqn:Hvalid; [|reflexivity].
        simpl in Hnext. unfold is_valid in Hvalid. rewrite Hvalid in Hnext.
        congruence.
      + rewrite outcome_valid_validated. unfold validated.
        intros Hinvalid. rewrite Hinvalid. simpl. auto.
    - assert (Hs : outcome_valid s = false) by (apply Hbefore; discriminate).
      specialize (Herr eq_refl).
      destruct Hrun as [(Hno & _)|(_ & [(d & -> & _)|(e & -> & _)])];
        [congruence| |]; split; auto.
    - destruct (Hready eq_refl) as [Hvalid _].
      destruct Hrun as (r & -> & _). split.
      + intros n' Hnext Hnp Hnl.
        destruct (should_continue _); [|discriminate].
        injection Hnext as <-. contradiction.
      + intros Hinvalid. unfold outcome_valid in *. simpl in *.
        congruence.
    - subst. split; [discriminate|assumption]. }
  destruct Hrest as [Hbefore' Hnothing'].
  destruct (next_node n s') as [n'|]; [|assumption].
  split; [exact Hrec'|]. split; [exact Hready'|].
  split; [|exact Hnothing'].
  intros Hnp Hnl. simpl in *. eapply Hbefore'; eauto.
Qed.

Lemma prepare_state_initial pdf_path patient_email w state w1 :
  prepare_state E pdf_path patient_email w = (Ok state, w1) ->
  exists pdf_result empi,
    state = initial_state (path_str E pdf_path) pdf_result empi.
Proof.
  unfold prepare_state. destruct (negb (path_exists E pdf_path)).
  - discriminate.
  - intros H. minv_ok.
    match goal with
    | H : alloc _ _ = _ |- _ => unfold alloc in H; inversion H; subst
    end. eauto.
Qed.

End Unsubmitted.

(** X16. [process_referral] reports [success=True] whenever the workflow
    returns with [error_message] empty, also when nothing was validated or
    posted: if the run ends with an invalid outcome (the retries are used
    up), the answer is [success=True] with an empty [final_json], an empty
    [posting_result] and no [resource_id]. *)
Theorem success_is_reported_without_a_submission
    (E : Env) (limit : nat) (pdf_path : string)
    (patient_email : option string) (w : World)
    (state : AgentState) (w1 : World) (s' : AgentState) (w' : World) :
  prepare_state E pdf_path patient_email w = (Ok state, w1) ->
  snd (ainvoke E limit state w1) = (Ok s', w') ->
  outcome_valid s' = false ->
  error_message s' = EmptyString ->
  process_referral E limit pdf_path patient_email w =
  (Ok [("success", JBool true);
       ("pdf_path", JStr pdf_path);
       ("final_json", JObj []);
       ("posting_result", JObj []);
       ("retry_count", JNum (retry_count s'));
       ("resource_id", JNull)], w').
Proof.
  intros Hprep Hrun Hinvalid Hclean.
  destruct (prepare_state_initial E _ _ _ _ _ Hprep) as (pdf_result & empi & ->).
  destruct (run_from_invariant E not_yet_valid (fun s _ => nothing_submitted s)
              (not_yet_valid_step E) limit Generator
              (initial_state (path_str E pdf_path) pdf_result empi) w1)
    as [_ Hfin].
  { split; [split; [reflexivity|split; [reflexivity|discriminate]]|].
    split; [intros H; discriminate H|].
    split; [reflexivity|]. intros _. split; reflexivity. }
  destruct (Hfin s' w' Hrun Hinvalid) as [Hfinal Hposting].
  unfold process_referral, try_catch, bind. rewrite Hprep.
  unfold run_workflow. rewrite Hrun. unfold ret, referral_result.
  rewrite Hclean, Hfinal, Hposting. reflexivity.
Qed.

Lemma success_is_reported_without_a_submission_witness :
  process_referral stubborn_env default_recursion_limit "referral.pdf" None
    {| tick := 0; heap := []; audit_log := []; sent := [] |} =
  (Ok [("success", JBool true);
       ("pdf_path", JStr "referral.pdf");
       ("final_json", JObj []);
       ("posting_result", JObj []);
       ("retry_count", JNum 3);
       ("resource_id", JNull)],
   snd (process_referral stubborn_env default_recursion_limit "referral.pdf"
          None {| tick := 0; heap := []; audit_log := []; sent := [] |})).
Proof.
  apply (success_is_reported_without_a_submission stubborn_env
           default_recursion_limit "referral.pdf" None
           {| tick := 0; heap := []; audit_log := []; sent := [] |}
           (initial_state "referral.pdf" extracted 0)
           {| tick := 1; heap := [JObj []]; audit_log := [];
              sent := [extract_request pdf_service_url] |}
           (with_validation_result
              (validation false [JStr "Missing required field: requester"])
              (with_retry_count 3 (with_draft_json draft0 state0)))).
  - vm_compute. reflexivity.
  - vm_compute. reflexivity.
  - reflexivity.
  - reflexivity.
Defined.

(** ** Audit failures and the outcome of a run *)

Section AuditBlind.

Lemma blind_ret {A} (a : A) : audit_blind (ret a) (ret a).
Proof. intros w1 w2 H. split; [reflexivity|exact H]. Qed.

Lemma blind_lift {A} (x : exn A) : audit_blind (lift x) (lift x).
Proof. intros w1 w2 H. split; [reflexivity|exact H]. Qed.

Lemma blind_raise {A} (e : string) : audit_blind (@raise A e) (raise e).
Proof. intros w1 w2 H. split; [reflexivity|exact H]. Qed.

Lemma blind_bind {A B} (m1 m2 : M A) (k1 k2 : A -> M B) :
  audit_blind m1 m2 -> (forall a, audit_blind (k1 a) (k2 a)) ->
  audit_blind (bind m1 k1) (bind m2 k2).
Proof.
  intros Hm Hk w1 w2 Hw. unfold bind. destruct (Hm w1 w2 Hw) as [Hr Hw'].
  destruct (m1 w1) as [[a|e] w1'], (m2 w2) as [[a2|e2] w2']; simpl in *;
    try discriminate.
  - injection Hr as <-. apply Hk. exact Hw'.
  - injection Hr as <-. auto.
Qed.

Lemma blind_try_catch {A} (m1 m2 : M A) (h1 h2 : string -> M A) :
  audit_blind m1 m2 -> (forall e, audit_blind (h1 e) (h2 e)) ->
  audit_blind (try_catch m1 h1) (try_catch m2 h2).
Proof.
  intros Hm Hh w1 w2 Hw. unfold try_catch. destruct (Hm w1 w2 Hw) as [Hr Hw'].
  destruct (m1 w1) as [[a|e] w1'], (m2 w2) as [[a2|e2] w2']; simpl in *;
    try discriminate.
  - injection Hr as <-. auto.
  - injection Hr as <-. apply Hh. exact Hw'.
Qed.

Context (E : Env) (ok : nat -> bool).

Lemma blind_http_send rq : audit_blind (http_send E rq) (http_send E rq).
Proof.
  intros w1 w2 (Ht & Hh & Hs). unfold http_send, same_but_audit. simpl.
  rewrite Ht, Hh, Hs. auto.
Qed.

Lemma blind_llm_call p : audit_blind (llm_call E p) (llm_call E p).
Proof.
  intros w1 w2 (Ht & Hh & Hs). unfold llm_call, same_but_audit. simpl.
  rewrite Ht, Hh, Hs. auto.
Qed.

Lemma blind_heap_read l : audit_blind (heap_read l) (heap_read l).
Proof.
  intros w1 w2 (Ht & Hh & Hs). unfold heap_read, deref, same_but_audit.
  simpl. rewrite Hh. auto.
Qed.

Lemma blind_heap_setitem l k v :
  audit_blind (heap_setitem l k v) (heap_setitem l k v).
Proof.
  intros w1 w2 (Ht & Hh & Hs). unfold heap_setitem, deref, same_but_audit.
  rewrite Hh. destruct (setitem_key _ k v); simpl; rewrite ?Hh; auto.
Qed.

Lemma blind_log_operation op i o s e r :
  audit_blind (log_operation E op i o s e r)
    (log_operation (with_sqlite ok E) op i o s e r).
Proof.
  intros w1 w2 (Ht & Hh & Hs). unfold log_operation, same_but_audit. simpl.
  rewrite Ht, Hh, Hs. auto.
Qed.

Ltac blind_step :=
  first
    [ apply blind_ret | apply blind_lift | apply blind_raise
    | apply blind_http_send | apply blind_llm_call
    | apply blind_heap_read | apply blind_heap_setitem
    | apply blind_log_operation
    | apply blind_bind; [|intros ?]
    | apply blind_try_catch; [|intros ?]
    | match goal with
      | |- audit_blind (if ?b then _ else _) _ => destruct b
      | |- audit_blind (match ?x with _ => _ end) _ => destruct x
      end ].

Lemma blind_parse_llm_json raw :
  audit_blind (parse_llm_json E raw) (parse_llm_json E raw).
Proof. unfold parse_llm_json. cbv zeta. repeat blind_step. Qed.

Lemma blind_validate_fhir url j :
  audit_blind (validate_fhir E url j) (validate_fhir E url j).
Proof. unfold validate_fhir, validate_local. repeat blind_step. Qed.

Lemma blind_post_fhir url j :
  audit_blind (post_fhir E url j) (post_fhir E url j).
Proof. unfold post_fhir. repeat blind_step. Qed.

Lemma blind_search_one kind :
  audit_blind (search_one E kind) (search_one E kind).
Proof. unfold search_one. repeat blind_step. Qed.

Lemma blind_generator s :
  audit_blind (generator E s) (generator (with_sqlite ok E) s).
Proof.
  unfold generator, generator_body, generator_handler,
    get_real_patient_id, get_real_practitioner_id.
  change (search_one (with_sqlite ok E)) with (search_one E).
  change (parse_llm_json (with_sqlite ok E)) with (parse_llm_json E).
  change (llm_call (with_sqlite ok E)) with (llm_call E).
  change (py_str (with_sqlite ok E)) with (py_str E).
  repeat first [ apply blind_search_one | apply blind_parse_llm_json
               | blind_step ].
Qed.

Lemma blind_validator s :
  audit_blind (validator E s) (validator (with_sqlite ok E) s).
Proof.
  unfold validator, validator_body, validator_handler.
  change (validate_fhir (with_sqlite ok E)) with (validate_fhir E).
  repeat first [ apply blind_validate_fhir | blind_step ].
Qed.

Lemma blind_fixer s :
  audit_blind (fixer E s) (fixer (with_sqlite ok E) s).
Proof.
  unfold fixer, fixer_body, fixer_handler.
  change (parse_llm_json (with_sqlite ok E)) with (parse_llm_json E).
  change (llm_call (with_sqlite ok E)) with (llm_call E).
  repeat first [ apply blind_parse_llm_json | blind_step ].
Qed.

Lemma blind_poster s :
  audit_blind (poster E s) (poster (with_sqlite ok E) s).
Proof.
  unfold poster, poster_body, poster_handler.
  change (post_fhir (with_sqlite ok E)) with (post_fhir E).
  repeat first [ apply blind_post_fhir | blind_step ].
Qed.

Lemma blind_logger s :
  audit_blind (logger_node E s) (logger_node (with_sqlite ok E) s).
Proof. unfold logger_node, logger_body. repeat blind_step. Qed.

Lemma blind_run_node n s :
  audit_blind (run_node E n s) (run_node (with_sqlite ok E) n s).
Proof.
  destruct n; unfold run_node;
    auto using blind_generator, blind_validator, blind_fixer, blind_poster,
      blind_logger.
Qed.

Lemma blind_run_from limit n s w1 w2 :
  same_but_audit w1 w2 ->
  Forall2 same_step (fst (run_from E limit n s w1))
    (fst (run_from (with_sqlite ok E) limit n s w2)) /\
  fst (snd (run_from E limit n s w1)) =
    fst (snd (run_from (with_sqlite ok E) limit n s w2)) /\
  same_but_audit (snd (snd (run_from E limit n s w1)))
    (snd (snd (run_from (with_sqlite ok E) limit n s w2))).
Proof.
  revert n s w1 w2. induction limit as [|limit IH]; intros n s w1 w2 Hw.
  - simpl. split; [constructor|]. split; [reflexivity|exact Hw].
  - simpl. destruct (blind_run_node n s w1 w2 Hw) as [Hr Hw'].
    assert (Hhere : same_step
              {| c_node := n; c_state := s; c_world := w1 |}
              {| c_node := n; c_state := s; c_world := w2 |}).
    { split; [reflexivity|]. split; [reflexivity|exact Hw]. }
    destruct (run_node E n s w1) as [[s1|e1] w1'],
      (run_node (with_sqlite ok E) n s w2) as [[s2|e2] w2'];
      simpl in *; try discriminate.
    + injection Hr as <-.
      destruct (next_node n s1) as [n'|].
      * specialize (IH n' s1 w1' w2' Hw').
        destruct (run_from E limit n' s1 w1') as [steps1 r1],
          (run_from (with_sqlite ok E) limit n' s1 w2') as [steps2 r2].
        simpl in *. destruct IH as (Hsteps & Hres & Hfin).
        split; [constructor; assumption|]. split; assumption.
      * simpl. split; [constructor; [exact Hhere|constructor]|].
        split; [reflexivity|assumption].
    + injection Hr as <-. simpl.
      split; [constructor; [exact Hhere|constructor]|].
      split; [reflexivity|assumption].
Qed.

End AuditBlind.

(** X17. Whether the audit INSERTs succeed or fail does not change a run:
    with any other fate for the INSERTs, the same nodes run on the same
    states, the same requests are sent, the same objects are updated and
    the run returns the same state or error; [process_referral] gives the
    same answer.  Only the audit table differs. *)
Theorem audit_failures_do_not_change_the_run
    (E : Env) (ok : nat -> bool) (limit : nat) (initial : AgentState)
    (w : World) :
  Forall2 same_step (fst (ainvoke E limit initial w))
    (fst (ainvoke (with_sqlite ok E) limit initial w)) /\
  fst (snd (ainvoke E limit initial w)) =
    fst (snd (ainvoke (with_sqlite ok E) limit initial w)) /\
  same_but_audit (snd (snd (ainvoke E limit initial w)))
    (snd (snd (ainvoke (with_sqlite ok E) limit initial w))) /\
  forall pdf_path patient_email,
    fst (process_referral E limit pdf_path patient_email w) =
    fst (process_referral (with_sqlite ok E) limit pdf_path patient_email w).
Proof.
  assert (Hrefl : forall w0, same_but_audit w0 w0)
    by (intros w0; repeat split).
  unfold ainvoke.
  destruct (blind_run_from E ok limit Generator initial w w (Hrefl w))
    as (Hsteps & Hres & Hfin).
  split; [exact Hsteps|]. split; [exact Hres|]. split; [exact Hfin|].
  intros pdf_path patient_email.
  unfold process_referral, try_catch, bind.
  change (prepare_state (with_sqlite ok E)) with (prepare_state E).
  destruct (prepare_state E pdf_path patient_email w) as [[state|e] w1];
    [|reflexivity].
  unfold run_workflow, ainvoke.
  destruct (blind_run_from E ok limit Generator state w1 w1 (Hrefl w1))
    as (_ & Hres' & _).
  destruct (run_from E limit Generator state w1) as [steps1 [r1 w1']],
    (run_from (with_sqlite ok E) limit Generator state w1)
      as [steps2 [r2 w2']].
  simpl in *. subst r2. destruct r1; reflexivity.
Qed.

(** ** Parsing the completion: the fenced block *)

Section Fences.

Lemma string_app_cons (x : ascii) (a b : string) :
  String x a +:+ b = String x (a +:+ b).
Proof. reflexivity. Qed.



Lemma prefix_app (s r : string) : String.prefix s (s +:+ r) = true.
Proof.
  induction s as [|a s IH]; [destruct r; reflexivity|].
  rewrite string_app_cons. simpl.
  destruct (ascii_dec a a); [exact IH|contradiction].
Qed.







End Fences.







(** ** The EMPI mock service *)

Lemma mock_search_by_name (name : string) :
  EmpiMock.search_by_name (map snd EmpiMock.MOCK_PATIENTS) name =
  Ok (if String.eqb "john doe" (py_lower name) then Some EmpiMock.john
      else if String.eqb "jane smith" (py_lower name) then Some EmpiMock.jane
      else None).
Proof.
  change (map snd EmpiMock.MOCK_PATIENTS) with [EmpiMock.john; EmpiMock.jane].
  cbn [EmpiMock.search_by_name].
  change (getitem_key EmpiMock.john "name") with (@Ok json (JStr "John Doe")).
  change (getitem_key EmpiMock.jane "name") with (@Ok json (JStr "Jane Smith")).
  cbn [exn_bind EmpiMock.lower_of].
  change (py_lower "John Doe") with "john doe".
  change (py_lower "Jane Smith") with "jane smith".
  destruct (String.eqb "john doe" (py_lower name)); [reflexivity|].
  destruct (String.eqb "jane smith" (py_lower name)); reflexivity.
Qed.

Lemma mock_search_by_id (id : string) :
  EmpiMock.search_by_id (map snd EmpiMock.MOCK_PATIENTS) id =
  Ok (if String.eqb "patient-001" id then Some EmpiMock.john
      else if String.eqb "patient-002" id then Some EmpiMock.jane
      else None).
Proof.
  change (map snd EmpiMock.MOCK_PATIENTS) with [EmpiMock.john; EmpiMock.jane].
  cbn [EmpiMock.search_by_id].
  change (getitem_key EmpiMock.john "id") with (@Ok json (JStr "patient-001")).
  change (getitem_key EmpiMock.jane "id") with (@Ok json (JStr "patient-002")).
  cbn [exn_bind py_eq_str].
  destruct (String.eqb "patient-001" id); [reflexivity|].
  destruct (String.eqb "patient-002" id); reflexivity.
Qed.

Lemma mock_lookup_cases (email name id : option string) :
  exists p,
    EmpiMock.lookup_patient email name id =
      EmpiMock.PatientResponse true p JNull /\
    (p = EmpiMock.john \/ p = EmpiMock.jane \/ p = EmpiMock.default_patient).
Proof.
  unfold EmpiMock.lookup_patient, EmpiMock.lookup_patient_body. cbv zeta.
  rewrite mock_search_by_name, mock_search_by_id.
  destruct (EmpiMock.given email).
  - unfold EmpiMock.MOCK_PATIENTS, dict_get.
    destruct (String.eqb "john.doe@email.com" (EmpiMock.text_of email));
      [eauto|].
    destruct (String.eqb "jane.smith@email.com" (EmpiMock.text_of email));
      [eauto|].
    destruct (EmpiMock.given name).
    + destruct (String.eqb "john doe" _); [eauto|].
      destruct (String.eqb "jane smith" _); eauto 6.
    + destruct (EmpiMock.given id); [|eauto 6].
      destruct (String.eqb "patient-001" _); [eauto|].
      destruct (String.eqb "patient-002" _); eauto 6.
  - destruct (EmpiMock.given name).
    + destruct (String.eqb "john doe" _); [eauto|].
      destruct (String.eqb "jane smith" _); eauto 6.
    + destruct (EmpiMock.given id); [|eauto 6].
      destruct (String.eqb "patient-001" _); [eauto|].
      destruct (String.eqb "patient-002" _); eauto 6.
Qed.

(** X21. The mock EMPI never reports a failure and never reports that a
    patient is unknown: for every combination of email, name and id it
    answers [success=True] with one of its two patients or, when nothing
    matches, with the default patient. *)
Theorem mock_lookup_always_finds_a_patient (email name id : option string) :
  exists p,
    EmpiMock.lookup_patient email name id =
      EmpiMock.PatientResponse true p JNull /\
    (p = EmpiMock.john \/ p = EmpiMock.jane \/ p = EmpiMock.default_patient).
Proof. apply mock_lookup_cases. Qed.

(** X22. In the mock EMPI the id is only looked at when no name is given: a
    request with an email the mock does not know (or none) and a name that
    matches no patient, compared without regard to case, gets the default
    patient whatever its id, also when the id is that of a patient. *)
Theorem mock_lookup_ignores_id_when_a_name_is_given
    (email id : option string) (name : string) :
  (if EmpiMock.given email
   then dict_get EmpiMock.MOCK_PATIENTS (EmpiMock.text_of email)
   else None) = None ->
  truthy (JStr name) = true ->
  py_lower name <> "john doe" ->
  py_lower name <> "jane smith" ->
  EmpiMock.lookup_patient email (Some name) id =
  EmpiMock.PatientResponse true EmpiMock.default_patient JNull.
Proof.
  intros Hemail Hname Hjohn Hjane.
  unfold EmpiMock.lookup_patient, EmpiMock.lookup_patient_body. cbv zeta.
  rewrite Hemail, mock_search_by_name.
  unfold EmpiMock.given, EmpiMock.text_of. rewrite Hname.
  destruct (String.eqb_spec "john doe" (py_lower name)); [congruence|].
  destruct (String.eqb_spec "jane smith" (py_lower name)); [congruence|].
  reflexivity.
Qed.

Lemma mock_lookup_ignores_id_when_a_name_is_given_witness :
  EmpiMock.lookup_patient None (Some "Nobody") (Some "patient-001") =
  EmpiMock.PatientResponse true EmpiMock.default_patient JNull.
Proof.
  apply (mock_lookup_ignores_id_when_a_name_is_given None
           (Some "patient-001") "Nobody").
  - reflexivity.
  - reflexivity.
  - vm_compute. discriminate.
  - vm_compute. discriminate.
Defined.

(** X23. The mock EMPI finds a patient by name without regard to case: when
    the email is not one it knows, any spelling of a patient's name in
    upper and lower case returns that patient. *)
Theorem mock_lookup_by_name_ignores_case
    (email id : option string) (name : string) (p : json) (known : string) :
  (if EmpiMock.given email
   then dict_get EmpiMock.MOCK_PATIENTS (EmpiMock.text_of email)
   else None) = None ->
  truthy (JStr name) = true ->
  In p (map snd EmpiMock.MOCK_PATIENTS) ->
  getitem_key p "name" = Ok (JStr known) ->
  py_lower name = py_lower known ->
  EmpiMock.lookup_patient email (Some name) id =
  EmpiMock.PatientResponse true p JNull.
Proof.
  intros Hemail Hname Hin Hknown Hlower.
  unfold EmpiMock.lookup_patient, EmpiMock.lookup_patient_body. cbv zeta.
  rewrite Hemail, mock_search_by_name.
  unfold EmpiMock.given, EmpiMock.text_of. rewrite Hname, Hlower.
  destruct Hin as [<-|[<-|[]]]; simpl in Hknown; injection Hknown as <-;
    reflexivity.
Qed.

Lemma mock_lookup_by_name_ignores_case_witness :
  EmpiMock.lookup_patient (Some "nobody@email.com") (Some "JANE smith") None =
  EmpiMock.PatientResponse true EmpiMock.jane JNull.
Proof.
  apply (mock_lookup_by_name_ignores_case (Some "nobody@email.com") None
           "JANE smith" EmpiMock.jane "Jane Smith").
  - reflexivity.
  - reflexivity.
  - right. left. reflexivity.
  - reflexivity.
  - reflexivity.
Defined.

(** X24. Against the mock EMPI the optional lookup of [process_referral]
    always yields patient data: with a non-empty email, [empi_data] is one
    of the mock's patients or its default patient, never the empty dict, and
    the lookup is never taken as failed. *)
Theorem lookup_against_mock_always_yields_a_patient
    (E : Env) (email : string) (w : World) :
  served_by_mock E ->
  truthy (JStr email) = true ->
  exists p,
    fst (optional_empi_lookup E (Some email) w) = Ok p /\
    (p = EmpiMock.john \/ p = EmpiMock.jane \/ p = EmpiMock.default_patient) /\
    sent (snd (optional_empi_lookup E (Some email) w)) =
      sent w ++ [lookup_request empi_service_url (Some email)].
Proof.
  intros Hmock Hemail.
  assert (Hrq : lookup_request empi_service_url (Some email) =
                {| rq_method := GET; rq_url := empi_service_url +:+ "/patient";
                   rq_params := [("email", JStr email)]; rq_json := None |}).
  { unfold lookup_request. rewrite Hemail. reflexivity. }
  destruct (Hmock (tick w) (lookup_request empi_service_url (Some email))
              eq_refl eq_refl) as (resp & Hhttp & Hstatus & Hbody).
  rewrite Hrq in Hhttp, Hbody. unfold query_param in Hbody. simpl in Hbody.
  destruct (mock_lookup_cases (Some email) None None) as (p & Hp & Hwho).
  rewrite Hp in Hbody.
  exists p. rewrite Hrq.
  unfold optional_empi_lookup. rewrite Hemail.
  unfold bind at 1. unfold lookup_patient, try_catch, bind, http_send.
  rewrite Hemail, Hhttp, Hstatus. simpl. unfold lift. rewrite Hbody. simpl.
  split; [reflexivity|]. split; [exact Hwho|reflexivity].
Qed.

Lemma lookup_against_mock_always_yields_a_patient_witness :
  exists p,
    fst (optional_empi_lookup mock_empi_env (Some "nonexistent@email.com")
           world0) = Ok p /\
    (p = EmpiMock.john \/ p = EmpiMock.jane \/ p = EmpiMock.default_patient) /\
    sent (snd (optional_empi_lookup mock_empi_env
                 (Some "nonexistent@email.com") world0)) =
      sent world0
      ++ [lookup_request empi_service_url (Some "nonexistent@email.com")].
Proof.
  apply (lookup_against_mock_always_yields_a_patient mock_empi_env
           "nonexistent@email.com" world0).
  - intros t rq _ Hurl. unfold mock_empi_env, mock_empi_http. simpl.
    rewrite Hurl. rewrite String.eqb_refl.
    eexists. split; [reflexivity|]. split; reflexivity.
  - reflexivity.
Defined.

(** ** Generation without a patient *)

(** X25. When the registry cannot be reached for the patient search, or
    answers it with a status other than 200, [generator] fails with "No
    patients found in FHIR server...": it sends that one search only (no
    practitioner search), makes no completion call, updates no object, and
    returns the state with only [error_message] set, after one failed audit
    write. *)
Theorem generator_needs_a_patient_from_the_registry
    (E : Env) (state : AgentState) (w : World) (data pdf_content : json) :
  getitem_key (pdf_data state) "data" = Ok data ->
  getitem_key data "text_content" = Ok pdf_content ->
  (forall resp,
     http E (tick w) (search_request "Patient") = Ok resp ->
     status_code resp <> 200) ->
  generator E state w =
  (Ok (with_error_message no_patients state),
   {| tick := S (S (tick w));
      heap := heap w;
      audit_log :=
        if sqlite_insert_ok E (S (tick w))
        then audit_log w ++
             [{| a_operation := "generator";
                 a_input_data := dumps_if (pdf_data state);
                 a_output_data := None;
                 a_success := JBool false;
                 a_error_message := Some no_patients;
                 a_retry_count := 0 |}]
        else audit_log w;
      sent := sent w ++ [search_request "Patient"] |}).
Proof.
  intros Hdata Htext Hhttp.
  unfold generator, try_catch, generator_body.
  unfold bind at 1. unfold lift at 1. rewrite Hdata.
  unfold bind at 1. unfold lift at 1. rewrite Htext.
  unfold bind at 1.
  assert (Hid : get_real_patient_id E (empi_data state) w =
    (Ok JNull,
     {| tick := S (tick w); heap := heap w; audit_log := audit_log w;
        sent := sent w ++ [search_request "Patient"] |})).
  { unfold get_real_patient_id, try_catch, bind, search_one, bind, http_send.
    fold (search_request "Patient").
    destruct (http E (tick w) (search_request "Patient")) as [resp|e]
      eqn:Hresp; [|reflexivity].
    specialize (Hhttp resp eq_refl).
    destruct (status_code resp =? 200) eqn:H200; [lia|reflexivity]. }
  rewrite Hid. simpl.
  unfold raise, generator_handler, bind, ret.
  rewrite log_operation_result. reflexivity.
Qed.

Lemma generator_needs_a_patient_from_the_registry_witness :
  generator offline_env state0 world0 =
  (Ok (with_error_message no_patients state0),
   {| tick := 2;
      heap := [JObj []];
      audit_log :=
        [{| a_operation := "generator";
            a_input_data := Some extracted;
            a_output_data := None;
            a_success := JBool false;
            a_error_message := Some no_patients;
            a_retry_count := 0 |}];
      sent := [search_request "Patient"] |}).
Proof.
  apply (generator_needs_a_patient_from_the_registry offline_env state0
           world0
           (JObj [("text_content", JStr "Test PDF content");
                  ("filename", JStr "test.pdf")])
           (JStr "Test PDF content")).
  - reflexivity.
  - reflexivity.
  - intros resp H. discriminate H.
Defined.
(** ** The PDF extraction service *)

Section PdfHandler.

Import PdfService.

Context (L : Lib).

(** Run the handler on the answers recorded in the context. *)
Ltac pdf_run :=
  unfold extract_pdf_body, and_then, answer_of, create, remove, done;
  repeat first
    [ progress cbn [negb]
    | match goal with H : ?x = _ |- context [?x] => rewrite H end ].

(** Every way the [try] block of the handler can end. *)
Lemma extract_pdf_body_cases (file : UploadFile) (d : Disk) :
  (endswith (py_lower (filename file)) ".pdf" = false /\
   extract_pdf_body L file d =
     (Raise (str_http_exception L 400 "File must be a PDF"), d)) \/
  (endswith (py_lower (filename file)) ".pdf" = true /\
   ((exists e, open_wb L (temp_path file) = Raise e /\
               extract_pdf_body L file d = (Raise e, d)) \/
    (open_wb L (temp_path file) = Ok tt /\
     ((exists e, extract_pdf_body L file d = (Raise e, temp_path file :: d)) \/
      (exists content pages plain,
         read file = Ok content /\
         pdfplumber_pages L content = Ok pages /\
         page_texts pages EmptyString = Ok plain /\
         extract_pdf_body L file d =
           (Ok [("filename", JStr (filename file));
                ("text_content", JStr (enhanced L content plain));
                ("extraction_method", JStr "pdfplumber + llama_parse");
                ("metadata",
                 JObj [("file_size", JNum (Z.of_nat (length content)));
                       ("pages", JNum (Z.of_nat (length pages)))])],
            filter (fun p => p <> temp_path file) (temp_path file :: d))))))).
Proof.
  destruct (endswith (py_lower (filename file)) ".pdf") eqn:Hname;
    [right|left; split; [reflexivity|pdf_run; reflexivity]].
  split; [reflexivity|].
  destruct (open_wb L (temp_path file)) as [[]|e] eqn:Hopen;
    [right|left; eexists; split; [reflexivity|pdf_run; reflexivity]].
  split; [reflexivity|].
  destruct (read file) as [content|e] eqn:Hread;
    [|left; eexists; pdf_run; reflexivity].
  destruct (write L (temp_path file) content) as [[]|e] eqn:Hwrite;
    [|left; eexists; pdf_run; reflexivity].
  destruct (pdfplumber_pages L content) as [pages|e] eqn:Hpages;
    [|left; eexists; pdf_run; reflexivity].
  destruct (page_texts pages EmptyString) as [plain|e] eqn:Hplain;
    [|left; eexists; pdf_run; reflexivity].
  destruct (unlink L (temp_path file)) as [[]|e] eqn:Hunlink;
    [|left; eexists; pdf_run; reflexivity].
  right. exists content, pages, plain.
  split; [reflexivity|]. split; [exact Hpages|]. split; [exact Hplain|].
  pdf_run. reflexivity.
Qed.

Lemma removed_path_is_gone (path : string) (d : Disk) :
  ~ In path (filter (fun p => p <> path) d).
Proof.
  intros Hin. apply list_elem_of_In, list_elem_of_filter in Hin.
  destruct Hin as [Hne _]. apply Hne. reflexivity.
Qed.

End PdfHandler.

Lemma prefix_same (s : string) : String.prefix s s = true.
Proof.
  induction s as [|a s IH]; [reflexivity|].
  simpl. destruct (ascii_dec a a); [exact IH|contradiction].
Qed.

(** X26. A reply of the PDF service with [success=True] is what the workflow
    expects: the lookup [pdf_data["data"]["text_content"]] of [generator]
    finds a string, and that string begins with the text pdfplumber
    extracted from the pages. *)
Theorem successful_extraction_carries_the_text_generator_reads
    (L : PdfService.Lib) (file : PdfService.UploadFile) (d : PdfService.Disk) :
  dict_get (fst (PdfService.extract_pdf L file d)) "success"
    = Some (JBool true) ->
  exists data text content pages plain,
    getitem_key (JObj (fst (PdfService.extract_pdf L file d))) "data"
      = Ok data /\
    getitem_key data "text_content" = Ok (JStr text) /\
    PdfService.read file = Ok content /\
    PdfService.pdfplumber_pages L content = Ok pages /\
    PdfService.page_texts pages EmptyString = Ok plain /\
    String.prefix plain text = true.
Proof.
  unfold PdfService.extract_pdf.
  destruct (extract_pdf_body_cases L file d)
    as [[_ ->]|[_ [(e & _ & ->)|[_ [(e & ->)|
         (content & pages & plain & Hread & Hpages & Hplain & ->)]]]]];
    try (intros H; discriminate H).
  intros _. eexists _, _, content, pages, plain.
  split; [reflexivity|]. split; [reflexivity|].
  split; [exact Hread|]. split; [exact Hpages|]. split; [exact Hplain|].
  unfold PdfService.enhanced.
  destruct (PdfService.load_data L content) as [[|doc docs]|e].
  - apply prefix_same.
  - apply prefix_app.
  - apply prefix_same.
Qed.

Lemma successful_extraction_carries_the_text_generator_reads_witness :
  exists data text content pages plain,
    getitem_key
      (JObj (fst (PdfService.extract_pdf PdfService.demo_lib
                    (PdfService.demo_upload "Referral.PDF") [])))
      "data" = Ok data /\
    getitem_key data "text_content" = Ok (JStr text) /\
    PdfService.read (PdfService.demo_upload "Referral.PDF") = Ok content /\
    PdfService.pdfplumber_pages PdfService.demo_lib content = Ok pages /\
    PdfService.page_texts pages EmptyString = Ok plain /\
    String.prefix plain text = true.
Proof.
  apply (successful_extraction_carries_the_text_generator_reads
           PdfService.demo_lib (PdfService.demo_upload "Referral.PDF") []).
  vm_compute. reflexivity.
Defined.

(** X27. The temporary copy of an upload is deleted exactly when the
    extraction succeeds: once /tmp/<filename> has been created, it is still
    on the disk after every reply with [success=False] (unreadable upload,
    failed write, pdfplumber error, failed unlink) and gone after every
    reply with [success=True]. *)
Theorem temp_file_is_removed_exactly_when_extraction_succeeds
    (L : PdfService.Lib) (file : PdfService.UploadFile) (d : PdfService.Disk) :
  endswith (py_lower (PdfService.filename file)) ".pdf" = true ->
  PdfService.open_wb L (PdfService.temp_path file) = Ok tt ->
  (In (PdfService.temp_path file) (snd (PdfService.extract_pdf L file d)) <->
   dict_get (fst (PdfService.extract_pdf L file d)) "success"
     = Some (JBool false)).
Proof.
  intros Hpdf Hopen. unfold PdfService.extract_pdf.
  destruct (extract_pdf_body_cases L file d)
    as [[Hno _]|[_ [(e & Hfail & _)|[_ [(e & ->)|
         (content & pages & plain & _ & _ & _ & ->)]]]]].
  - congruence.
  - congruence.
  - simpl. split; [reflexivity|]. intros _. left. reflexivity.
  - cbn [fst snd]. split.
    + intros Hin. exfalso. exact (removed_path_is_gone _ _ Hin).
    + intros H. discriminate H.
Qed.

Lemma temp_file_is_removed_exactly_when_extraction_succeeds_witness :
  In "/tmp/scan.pdf"
    (snd (PdfService.extract_pdf PdfService.broken_lib
            (PdfService.demo_upload "scan.pdf") [])) <->
  dict_get
    (fst (PdfService.extract_pdf PdfService.broken_lib
            (PdfService.demo_upload "scan.pdf") []))
    "success" = Some (JBool false).
Proof.
  apply (temp_file_is_removed_exactly_when_extraction_succeeds
           PdfService.broken_lib (PdfService.demo_upload "scan.pdf") []).
  - reflexivity.
  - reflexivity.
Defined.

(** X28. The document reader (LlamaIndex) cannot make an extraction fail:
    replacing it by any other reader changes neither [success] nor [error]
    of the reply nor what is left on the disk, and a reader that raises
    gives the same reply as one that finds no document. *)
Theorem document_reader_cannot_fail_the_extraction
    (L : PdfService.Lib) (f : list Byte.byte -> exn (list string))
    (file : PdfService.UploadFile) (d : PdfService.Disk) :
  dict_get (fst (PdfService.extract_pdf (PdfService.with_load_data f L) file d))
    "success"
    = dict_get (fst (PdfService.extract_pdf L file d)) "success" /\
  dict_get (fst (PdfService.extract_pdf (PdfService.with_load_data f L) file d))
    "error"
    = dict_get (fst (PdfService.extract_pdf L file d)) "error" /\
  snd (PdfService.extract_pdf (PdfService.with_load_data f L) file d)
    = snd (PdfService.extract_pdf L file d) /\
  (forall content e,
     PdfService.read file = Ok content ->
     PdfService.load_data L content = Raise e ->
     f content = Ok [] ->
     PdfService.extract_pdf (PdfService.with_load_data f L) file d
       = PdfService.extract_pdf L file d).
Proof.
  unfold PdfService.extract_pdf, PdfService.extract_pdf_body,
    PdfService.and_then, PdfService.answer_of, PdfService.create,
    PdfService.remove, PdfService.done.
  cbn [PdfService.with_load_data PdfService.open_wb PdfService.write
       PdfService.pdfplumber_pages PdfService.unlink
       PdfService.str_http_exception].
  destruct (endswith (py_lower (PdfService.filename file)) ".pdf");
    cbn [negb]; [|repeat split; intros; reflexivity].
  destruct (PdfService.open_wb L (PdfService.temp_path file)) as [[]|e0];
    [|repeat split; intros; reflexivity].
  destruct (PdfService.read file) as [content|e0];
    [|repeat split; intros; reflexivity].
  destruct (PdfService.write L (PdfService.temp_path file) content)
    as [[]|e0]; [|repeat split; intros; reflexivity].
  destruct (PdfService.pdfplumber_pages L content) as [pages|e0];
    [|repeat split; intros; reflexivity].
  destruct (PdfService.page_texts pages EmptyString) as [plain|e0];
    [|repeat split; intros; reflexivity].
  destruct (PdfService.unlink L (PdfService.temp_path file)) as [[]|e0];
    [|repeat split; intros; reflexivity].
  split; [reflexivity|]. split; [reflexivity|]. split; [reflexivity|].
  intros content' e Hread Hraise Hnone. injection Hread as <-.
  unfold PdfService.enhanced.
  cbn [PdfService.load_data PdfService.with_load_data].
  rewrite Hraise, Hnone. reflexivity.
Qed.

(** X29. An upload whose name does not end in .pdf is not answered with
    status 400: the handler catches its own [HTTPException] and replies
    [success=False] without creating a file, so the client takes the 200
    reply as the result and [process_referral] reports "PDF extraction
    failed: " followed by the text of that exception. *)
Theorem non_pdf_upload_is_reported_as_failed_extraction
    (E : Env) (L : PdfService.Lib) (file : PdfService.UploadFile)
    (d : PdfService.Disk) (limit : nat) (pdf_path : string)
    (patient_email : option string) (w : World) (resp : response) :
  endswith (py_lower (PdfService.filename file)) ".pdf" = false ->
  path_exists E pdf_path = true ->
  open_file E (path_str E pdf_path) = Ok tt ->
  http E (tick w) (extract_request pdf_service_url) = Ok resp ->
  status_code resp = 200 ->
  body_json resp = Ok (JObj (fst (PdfService.extract_pdf L file d))) ->
  PdfService.extract_pdf L file d =
    (PdfService.ExtractionResponse false JNull
       (JStr (PdfService.str_http_exception L 400 "File must be a PDF")), d) /\
  fst (process_referral E limit pdf_path patient_email w) =
    Ok (failure
          ("PDF extraction failed: "
           +:+ py_str E
                 (JStr (PdfService.str_http_exception L 400
                          "File must be a PDF")))).
Proof.
  intros Hname Hexists Hopen Hhttp Hstatus Hbody.
  assert (Hreply : PdfService.extract_pdf L file d =
    (PdfService.ExtractionResponse false JNull
       (JStr (PdfService.str_http_exception L 400 "File must be a PDF")), d)).
  { unfold PdfService.extract_pdf, PdfService.extract_pdf_body.
    rewrite Hname. reflexivity. }
  split; [exact Hreply|].
  rewrite Hreply in Hbody. cbn [fst] in Hbody.
  unfold process_referral, try_catch. unfold bind at 1.
  unfold prepare_state. rewrite Hexists. cbn [negb].
  unfold bind at 1.
  unfold extract_pdf, try_catch. unfold bind at 1. unfold lift at 1.
  rewrite Hopen. unfold bind at 1. unfold http_send.
  fold (extract_request pdf_service_url). rewrite Hhttp, Hstatus.
  cbn [Z.eqb Pos.eqb]. unfold lift at 1. rewrite Hbody.
  reflexivity.
Qed.

Lemma non_pdf_upload_is_reported_as_failed_extraction_witness :
  PdfService.extract_pdf PdfService.demo_lib
    (PdfService.demo_upload "notes.txt") ["/tmp/old.pdf"] =
    (PdfService.ExtractionResponse false JNull
       (JStr (PdfService.str_http_exception PdfService.demo_lib 400
                "File must be a PDF")), ["/tmp/old.pdf"]) /\
  fst (process_referral
         (pdf_service_env PdfService.demo_lib
            (PdfService.demo_upload "notes.txt") ["/tmp/old.pdf"])
         default_recursion_limit "notes.txt" None world0) =
    Ok (failure
          ("PDF extraction failed: "
           +:+ py_str
                 (pdf_service_env PdfService.demo_lib
                    (PdfService.demo_upload "notes.txt") ["/tmp/old.pdf"])
                 (JStr (PdfService.str_http_exception PdfService.demo_lib 400
                          "File must be a PDF")))).
Proof.
  apply (non_pdf_upload_is_reported_as_failed_extraction
           (pdf_service_env PdfService.demo_lib
              (PdfService.demo_upload "notes.txt") ["/tmp/old.pdf"])
           PdfService.demo_lib (PdfService.demo_upload "notes.txt")
           ["/tmp/old.pdf"] default_recursion_limit "notes.txt" None world0
           {| status_code := 200;
              text := dumps
                (JObj (fst (PdfService.extract_pdf PdfService.demo_lib
                              (PdfService.demo_upload "notes.txt")
                              ["/tmp/old.pdf"])));
              body_json :=
                Ok (JObj (fst (PdfService.extract_pdf PdfService.demo_lib
                                 (PdfService.demo_upload "notes.txt")
                                 ["/tmp/old.pdf"]))) |}).
  - reflexivity.
  - reflexivity.
  - reflexivity.
  - reflexivity.
  - reflexivity.
  - reflexivity.
Defined.
